(** * Belt probe helper (klippy/extras/belt_probe.py)

    A shallow embedding of the interactive Y-height probing helper and
    the properties of its bisection stepping, its session guard and its
    terminal commands.

    Numbers.  The positions handled by the helper are Python floats,
    which are IEEE 754 doubles.  They are modelled as rationals ([Q]);
    Python's [==] on floats is [Qeq] ([==]), decided by [Qeq_bool].
    The helper is embedded in exact arithmetic: [0.200] is [1/5],
    [0.500] is [1/2] and the two sentinels are [+-99999999999999/10].
    Rounding changes neither a comparison of two stored values nor the
    form of an expression.  It can change the order of a computed value
    and the value it was computed from, so the bisection core is
    embedded a second time in double arithmetic ([Double]), where every
    operation rounds its exact result to the nearest double; the
    properties on the order of the candidate and the current value are
    stated there.

    Collaborators.  The toolhead (motion stack and kinematics) is an
    interface ([Toolhead]); a G-code command line is given by what its
    accessors return or raise ([GCodeCommand]); the command table of the
    dispatcher is a finite map from command names to handlers;
    everything the helper says to the operator, every move it commands
    and every call of the completion callback is appended to an output
    trace.  Methods run in a state and exception monad over the helper
    object and the printer: a raise keeps the mutations made before
    it.

    The definitions come first, in the order of the source, followed by
    the vocabulary of the properties and a simulated toolhead on which
    the helper can be run; then the lemmas on the bisection, the runs of
    the methods, and the claims with their instances. *)

From Stdlib Require Import QArith Qminmax Qabs Qround Qpower Lqa Sorted.
From stdpp Require Import gmap strings list.

Local Open Scope Q_scope.

(** ** Python float primitives *)

Module Py.

(** [a < b] on floats. *)
Definition lt (a b : Q) : bool := negb (Qle_bool b a).

(** [a >= b] on floats. *)
Definition ge (a b : Q) : bool := Qle_bool b a.

(** [a == b] and [a != b] on floats. *)
Definition eq (a b : Q) : bool := Qeq_bool a b.
Definition ne (a b : Q) : bool := negb (Qeq_bool a b).

(** [min(a, b)]: the first argument unless the second is strictly
    smaller. *)
Definition min (a b : Q) : Q := if lt b a then b else a.

(** [max(a, b)]: the first argument unless the second is strictly
    larger. *)
Definition max (a b : Q) : Q := if lt a b then b else a.

(** [bisect.bisect_left(a, x)]: the binary search of the standard
    library,
<<
    lo, hi = 0, len(a)
    while lo < hi:
        mid = (lo + hi) // 2
        if a[mid] < x: lo = mid + 1
        else: hi = mid
    return lo
>>
    The loop runs on fuel; [hi - lo] strictly decreases, so [len(a)]
    iterations are enough: with that much fuel the loop has ended, and
    more fuel changes nothing ([bisect_loop_fuel]).  [mid] always lies
    in [lo, hi) and hence inside the list, so the default of [nth] is
    never read. *)
Fixpoint bisect_loop (fuel : nat) (a : list Q) (x : Q) (lo hi : nat) : nat :=
  match fuel with
  | O => lo
  | S fuel' =>
      if (lo <? hi)%nat then
        let mid := ((lo + hi) / 2)%nat in
        if lt (nth mid a 0) x
        then bisect_loop fuel' a x (mid + 1)%nat hi
        else bisect_loop fuel' a x lo mid
      else lo
  end.

Definition bisect_left (a : list Q) (x : Q) : nat :=
  bisect_loop (length a) a x 0%nat (length a).

(** [a.insert(i, x)] for a non-negative index: the element goes before
    position [i], or at the end when [i] is past the end. *)
Definition insert (i : nat) (x : Q) (a : list Q) : list Q :=
  take i a ++ x :: drop i a.

End Py.

(** ** Module constants *)

Definition Y_BOB_MINIMUM : Q := 1 # 2.
Definition BISECT_MAX : Q := 1 # 5.

(** The two literals [9999999999999.9] and [-9999999999999.9] of
    [cmd_TESTY]. *)
Definition SENTINEL_HIGH : Q := 99999999999999 # 10.
Definition SENTINEL_LOW : Q := - (99999999999999 # 10).

(** ** Messages, exceptions and the G-code command object *)

(** What the helper tells the operator ([respond_info]) and the text of
    the errors it can meet.  The numbers of the position report are
    kept as numbers; [None] stands for the placeholder ["??????"]. *)
Inductive message :=
| MsgStarting
| MsgNoChangeWarning
| MsgYPosition (prev : option Q) (y : Q) (next : option Q)
| MsgProbeFailed
| MsgAlreadyInProbe
| MsgAlreadyRegistered (cmd : string)
| MsgUnknownCommand (cmd : string)
| MsgParameter (text : string)
| MsgMoveFailed.

(** Exceptions: [gcode.error] and [printer.command_error] are the same
    class ([CommandError]); [printer.config_error] is another. *)
Inductive exn :=
| CommandError (m : message)
| ConfigError (m : message).

(** A handler is given the command line as an object with accessors
    for its parameters (gcode.py, not among the sources).  What the
    accessors used by the helper return, or raise, is an input of the
    model: [get_Y] is [gcmd.get("Y")], [get_float_Y] is
    [gcmd.get_float("Y")] and [get_float_SPEED d] is
    [gcmd.get_float("SPEED", d)]. *)
Record GCodeCommand := {
  get_Y : exn + string;
  get_float_Y : exn + Q;
  get_float_SPEED : Q -> exn + Q
}.

(** ** The bisection core of [cmd_TESTY] *)

(** Lines 205-208: remember the current position.
<<
    insert_pos = bisect.bisect_left(pp, y_pos)
    if insert_pos >= len(pp) or pp[insert_pos] != y_pos:
        pp.insert(insert_pos, y_pos)
>>
    Returns [insert_pos] and the list after the statement. *)
Definition store_position (pp : list Q) (y_pos : Q) : nat * list Q :=
  let insert_pos := Py.bisect_left pp y_pos in
  if (length pp <=? insert_pos)%nat || Py.ne (nth insert_pos pp 0) y_pos
  then (insert_pos, Py.insert insert_pos y_pos pp)
  else (insert_pos, pp).

(** Lines 210-226: the next position to move to, from the stored
    positions [pp] (after [store_position]), the index [insert_pos] of
    [y_pos] in them and the [Y] parameter. *)
Definition next_y_pos (pp : list Q) (insert_pos : nat) (y_pos : Q)
    (gcmd : GCodeCommand) : exn + Q :=
  match get_Y gcmd with
  | inl e => inl e
  | inr req =>
      if String.eqb req "+" || String.eqb req "++" then
        let check_y := SENTINEL_HIGH in
        let check_y :=
          if (insert_pos <? length pp - 1)%nat
          then nth (insert_pos + 1) pp 0 else check_y in
        let check_y :=
          if String.eqb req "+" then (check_y + y_pos) / 2 else check_y in
        inr (Py.min check_y (y_pos + BISECT_MAX))
      else if String.eqb req "-" || String.eqb req "--" then
        let check_y := SENTINEL_LOW in
        let check_y :=
          if (0 <? insert_pos)%nat
          then nth (insert_pos - 1) pp 0 else check_y in
        let check_y :=
          if String.eqb req "-" then (check_y + y_pos) / 2 else check_y in
        inr (Py.max check_y (y_pos - BISECT_MAX))
      else
        match get_float_Y gcmd with
        | inl e => inl e
        | inr d => inr (y_pos + d)
        end
  end.

(** ** The neighbours shown by [report_y_status]

    Lines 161-173: the stored positions next to [y_pos] on either side.
    [prev_pos] is the index [next_pos - 1], which is [-1] when
    [next_pos] is [0]. *)
Definition recent_positions (pp : list Q) (y_pos : Q)
  : option Q * option Q :=
  let next_pos := Py.bisect_left pp y_pos in
  let prev_pos := (Z.of_nat next_pos - 1)%Z in
  let next_pos :=
    if (next_pos <? length pp)%nat && Py.eq (nth next_pos pp 0) y_pos
    then (next_pos + 1)%nat else next_pos in
  let prev_pos_val :=
    if (0 <=? prev_pos)%Z then Some (nth (Z.to_nat prev_pos) pp 0)
    else None in
  let next_pos_val :=
    if (next_pos <? length pp)%nat then Some (nth next_pos pp 0)
    else None in
  (prev_pos_val, next_pos_val).

(** ** Positions *)

(** [toolhead.get_position()]: the commanded position, the list
    [[x, y, z, e]] of the toolhead (toolhead.py, not among the
    sources).  Its length is fixed, so it is a record; [pos_2] is
    [pos[2]]. *)
Record coord := Coord { pos_0 : Q; pos_1 : Q; pos_2 : Q; pos_3 : Q }.

(** [kin.calc_position(...)]: the list [[x, y, z]]; [kin_1] is
    [kin_pos[1]]. *)
Record kin_pos := KinPos { kin_0 : Q; kin_1 : Q; kin_2 : Q }.

(** [a == b] on two position lists: element by element. *)
Definition coord_eqb (a b : coord) : bool :=
  Py.eq (pos_0 a) (pos_0 b) && Py.eq (pos_1 a) (pos_1 b)
  && Py.eq (pos_2 a) (pos_2 b) && Py.eq (pos_3 a) (pos_3 b).

(** [a[:2] != b[:2]]. *)
Definition first_two_differ (a b : coord) : bool :=
  negb (Py.eq (pos_0 a) (pos_0 b) && Py.eq (pos_1 a) (pos_1 b)).

(** ** The toolhead

    [manual_move coord speed] takes the target [[x, y, z]] with [None]
    for an axis that keeps its value; its boolean is [false] when the
    move raises [printer.command_error].  [calc_position] is
    [kin.calc_position] applied to the commanded positions of the
    steppers of [toolhead.get_kinematics()]. *)
Class Toolhead (T : Type) := {
  get_position : T -> coord;
  manual_move : list (option Q) -> Q -> T -> T * bool;
  flush_step_generation : T -> T;
  calc_position : T -> kin_pos
}.

(** ** The printer around the helper *)

(** The status dictionary of the [manual_probe] object. *)
Record status := Status {
  is_active : bool;
  y_position : option Q;
  y_position_lower : option Q;
  y_position_upper : option Q
}.

(** What [register_command] is given as a handler by this module. *)
Inductive handler :=
| H_dummy
| H_cmd_ACCEPT
| H_cmd_ABORT
| H_cmd_TESTY.

(** The two completion callbacks of [BeltProbe]. *)
Inductive callback :=
| manual_probe_finalize
| y_endstop_finalize.

(** The observable actions of the helper, oldest first in a trace. *)
Inductive event :=
| RespondInfo (m : message)
| ManualMove (target : list (option Q)) (speed : Q)
| FinalizeCallback (cb : callback) (kin : option kin_pos).

Record printer (T : Type) := Printer {
  gcode_handlers : gmap string handler;
  toolhead : T;
  manual_probe_status : status;
  trace : list event
}.
Arguments Printer {T}.
Arguments gcode_handlers {T}.
Arguments toolhead {T}.
Arguments manual_probe_status {T}.
Arguments trace {T}.

(** The attributes of a [BeltProbeHelper].  [last_toolhead_pos] and
    [last_kinematics_pos] are only ever assigned together (lines 113 and
    138-139), so they are kept as one optional pair. *)
Record BeltProbeHelper := Helper {
  finalize_callback : callback;
  speed : Q;
  past_positions : list Q;
  last_pos : option (coord * kin_pos);
  start_position : coord
}.

(** A method of the helper runs on the object and the printer. *)
Record state (T : Type) := State {
  self : BeltProbeHelper;
  world : printer T
}.
Arguments State {T}.
Arguments self {T}.
Arguments world {T}.

(** ** State and exceptions

    A computation returns a value or raises, and leaves a state either
    way: what was mutated before an exception stays mutated. *)

Definition M (S A : Type) : Type := S -> (exn + A) * S.

Definition ret {S A} (a : A) : M S A := fun s => (inr a, s).

Definition raise {S A} (e : exn) : M S A := fun s => (inl e, s).

Definition bind {S A B} (m : M S A) (k : A -> M S B) : M S B :=
  fun s =>
    match m s with
    | (inl e, s') => (inl e, s')
    | (inr a, s') => k a s'
    end.

Definition try_except {S A} (m : M S A) (h : exn -> M S A) : M S A :=
  fun s =>
    match m s with
    | (inl e, s') => h e s'
    | (inr a, s') => (inr a, s')
    end.

Definition gets {S A} (f : S -> A) : M S A := fun s => (inr (f s), s).

Definition modify {S} (f : S -> S) : M S unit := fun s => (inr tt, f s).

Definition of_result {S A} (r : exn + A) : M S A := fun s => (r, s).

Definition when {S} (b : bool) (m : M S unit) : M S unit :=
  if b then m else ret tt.

Notation "x <- m ;; k" := (bind m (fun x => k))
  (at level 100, m at next level, right associativity).
Notation "m ;;; k" := (bind m (fun _ => k))
  (at level 100, right associativity).

Section WithToolhead.

Context {T : Type} `{Toolhead T}.

(** Runs a printer computation inside a method. *)
Definition on_world {A} (m : M (printer T) A) : M (state T) A :=
  fun s =>
    let (r, w) := m (world s) in (r, State (self s) w).

Definition set_handlers (f : gmap string handler -> gmap string handler)
    (p : printer T) : printer T :=
  Printer (f (gcode_handlers p)) (toolhead p) (manual_probe_status p) (trace p).

Definition set_toolhead (th : T) (p : printer T) : printer T :=
  Printer (gcode_handlers p) th (manual_probe_status p) (trace p).

Definition set_status (st : status) (p : printer T) : printer T :=
  Printer (gcode_handlers p) (toolhead p) st (trace p).

Definition emit (e : event) (p : printer T) : printer T :=
  Printer (gcode_handlers p) (toolhead p) (manual_probe_status p)
    (trace p ++ [e]).

Definition set_past_positions (pp : list Q) (h : BeltProbeHelper)
  : BeltProbeHelper :=
  Helper (finalize_callback h) (speed h) pp (last_pos h) (start_position h).

Definition set_last_pos (c : option (coord * kin_pos)) (h : BeltProbeHelper)
  : BeltProbeHelper :=
  Helper (finalize_callback h) (speed h) (past_positions h) c
    (start_position h).

Definition modify_self (f : BeltProbeHelper -> BeltProbeHelper)
  : M (state T) unit :=
  modify (fun s => State (f (self s)) (world s)).

(** *** The G-code object *)

(** Modelled from the spec: [gcode.register_command(cmd, func)] of the
    command dispatcher, which is not among the sources.  A name has at
    most one handler: with a handler, the name must be free
    ([printer.config_error] otherwise, which is what
    [verify_no_manual_probe] catches); with [None], the name is removed,
    and removing a name that is not registered does nothing. *)
Definition register_command (cmd : string) (func : option handler)
  : M (printer T) unit :=
  fun p =>
    match func with
    | None => (inr tt, set_handlers (delete cmd) p)
    | Some f =>
        match gcode_handlers p !! cmd with
        | Some _ => (inl (ConfigError (MsgAlreadyRegistered cmd)), p)
        | None => (inr tt, set_handlers (insert cmd f) p)
        end
    end.

(** Modelled from the spec: [gcode.respond_info(msg)] and
    [gcmd.respond_info(msg)], the delivery of a text to the operator. *)
Definition respond_info (m : message) : M (printer T) unit :=
  modify (emit (RespondInfo m)).

(** [toolhead.manual_move(coord, speed)]. *)
Definition toolhead_manual_move (target : list (option Q)) (spd : Q)
  : M (printer T) unit :=
  fun p =>
    let p := emit (ManualMove target spd) p in
    let (th, ok) := manual_move target spd (toolhead p) in
    if ok then (inr tt, set_toolhead th p)
    else (inl (CommandError MsgMoveFailed), set_toolhead th p).

(** Modelled from the spec: [manual_probe.reset_status()]; the
    [manual_probe] object is not among the sources.  It clears the
    status record as [BeltProbe.reset_status] does (lines 39-45). *)
Definition reset_status : M (printer T) unit :=
  modify (set_status (Status false None None None)).

(** Lines 88-95. *)
Definition verify_no_manual_probe : M (printer T) unit :=
  try_except (register_command "ACCEPT" (Some H_dummy))
    (fun e =>
       match e with
       | ConfigError _ => raise (CommandError MsgAlreadyInProbe)
       | CommandError _ => raise e
       end) ;;;
  register_command "ACCEPT" None.

(** *** The methods of [BeltProbeHelper] *)

(** Lines 129-140. *)
Definition get_kinematics_pos : M (state T) kin_pos :=
  toolhead_pos <- gets (fun s => get_position (toolhead (world s))) ;;
  cache <- gets (fun s => last_pos (self s)) ;;
  match cache with
  | Some (last_toolhead_pos, last_kinematics_pos) =>
      if coord_eqb toolhead_pos last_toolhead_pos
      then ret last_kinematics_pos
      else
        on_world (modify (fun p =>
          set_toolhead (flush_step_generation (toolhead p)) p)) ;;;
        kin <- gets (fun s => calc_position (toolhead (world s))) ;;
        modify_self (set_last_pos (Some (toolhead_pos, kin))) ;;;
        ret kin
  | None =>
      on_world (modify (fun p =>
        set_toolhead (flush_step_generation (toolhead p)) p)) ;;;
      kin <- gets (fun s => calc_position (toolhead (world s))) ;;
      modify_self (set_last_pos (Some (toolhead_pos, kin))) ;;;
      ret kin
  end.

(** Lines 231-240. *)
Definition finalize (success : bool) : M (state T) unit :=
  on_world reset_status ;;;
  on_world (register_command "ACCEPT" None) ;;;
  on_world (register_command "NEXT" None) ;;;
  on_world (register_command "ABORT" None) ;;;
  on_world (register_command "TESTY" None) ;;;
  kin_pos <- (if success
              then (k <- get_kinematics_pos ;; ret (Some k))
              else ret None) ;;
  cb <- gets (fun s => finalize_callback (self s)) ;;
  on_world (modify (emit (FinalizeCallback cb kin_pos))).

(** Lines 142-151. *)
Definition move_y (y_pos : Q) : M (state T) unit :=
  curpos <- gets (fun s => get_position (toolhead (world s))) ;;
  spd <- gets (fun s => speed (self s)) ;;
  try_except
    (let y_bob_pos := y_pos + Y_BOB_MINIMUM in
     when (Py.lt (pos_2 curpos) y_bob_pos)
       (on_world (toolhead_manual_move [None; None; Some y_bob_pos] spd)) ;;;
     on_world (toolhead_manual_move [None; None; Some y_pos] spd))
    (fun e =>
       match e with
       | CommandError _ => finalize false ;;; raise e
       | ConfigError _ => raise e
       end).

(** Lines 153-182. *)
Definition report_y_status (warn_no_change : bool) (prev_pos : option Q)
  : M (state T) unit :=
  kin_pos <- get_kinematics_pos ;;
  let y_pos := kin_1 kin_pos in
  when (warn_no_change
        && match prev_pos with Some v => Py.eq y_pos v | None => false end)
    (on_world (respond_info MsgNoChangeWarning)) ;;;
  pp <- gets (fun s => past_positions (self s)) ;;
  let (prev_pos_val, next_pos_val) := recent_positions pp y_pos in
  on_world (modify (set_status
    (Status true (Some y_pos) prev_pos_val next_pos_val))) ;;;
  on_world (respond_info (MsgYPosition prev_pos_val y_pos next_pos_val)).

(** Lines 105-127.  The object exists for its methods once all its
    attributes are set, at line 126. *)
Definition BeltProbeHelper_init (gcmd : GCodeCommand)
    (finalize_callback : callback) : M (printer T) BeltProbeHelper :=
  spd <- of_result (get_float_SPEED gcmd 5) ;;
  verify_no_manual_probe ;;;
  register_command "ACCEPT" (Some H_cmd_ACCEPT) ;;;
  register_command "NEXT" (Some H_cmd_ACCEPT) ;;;
  register_command "ABORT" (Some H_cmd_ABORT) ;;;
  register_command "TESTY" (Some H_cmd_TESTY) ;;;
  respond_info MsgStarting ;;;
  start <- gets (fun p => get_position (toolhead p)) ;;
  fun p =>
    let (r, s) :=
      report_y_status false None
        (State (Helper finalize_callback spd [] None start) p) in
    match r with
    | inl e => (inl e, world s)
    | inr _ => (inr (self s), world s)
    end.

(** Lines 185-194. *)
Definition cmd_ACCEPT (gcmd : GCodeCommand) : M (state T) unit :=
  pos <- gets (fun s => get_position (toolhead (world s))) ;;
  start_pos <- gets (fun s => start_position (self s)) ;;
  if first_two_differ pos start_pos || Py.ge (pos_2 pos) (pos_2 start_pos)
  then
    on_world (respond_info MsgProbeFailed) ;;;
    finalize false
  else finalize true.

(** Lines 197-198. *)
Definition cmd_ABORT (gcmd : GCodeCommand) : M (state T) unit :=
  finalize false.

(** Lines 201-229. *)
Definition cmd_TESTY (gcmd : GCodeCommand) : M (state T) unit :=
  kin_pos <- get_kinematics_pos ;;
  let y_pos := kin_1 kin_pos in
  pp <- gets (fun s => past_positions (self s)) ;;
  let (insert_pos, pp) := store_position pp y_pos in
  modify_self (set_past_positions pp) ;;;
  next <- of_result (next_y_pos pp insert_pos y_pos gcmd) ;;
  move_y next ;;;
  report_y_status (Py.ne next y_pos) (Some y_pos).

(** Modelled from the spec: the command dispatcher hands a command line
    to the handler registered under its name; a name without a handler
    is an unknown command, which raises and runs nothing.  The handlers
    in the table are the methods of the session [s]; the placeholder of
    [verify_no_manual_probe] never stays in the table and counts as no
    handler. *)
Definition dispatch (cmd : string) (gcmd : GCodeCommand) : M (state T) unit :=
  fun s =>
    match gcode_handlers (world s) !! cmd with
    | Some H_cmd_ACCEPT => cmd_ACCEPT gcmd s
    | Some H_cmd_ABORT => cmd_ABORT gcmd s
    | Some H_cmd_TESTY => cmd_TESTY gcmd s
    | Some H_dummy | None => raise (CommandError (MsgUnknownCommand cmd)) s
    end.

End WithToolhead.

(** ** Vocabulary of the properties *)

(** Strictly ascending: every earlier entry is smaller than every later
    one.  This is "sorted, no two entries equal" in one condition
    ([sorted_distinct_ascending]). *)
Definition ascending (l : list Q) : Prop :=
  forall i j, (i < j < length l)%nat -> nth i l 0 < nth j l 0.

(** Sorted in ascending order, and no value stored twice. *)
Definition sorted_distinct (l : list Q) : Prop :=
  StronglySorted Qle l /\
  forall i j, (i < length l)%nat -> (j < length l)%nat ->
    nth i l 0 == nth j l 0 -> i = j.

(** A decision procedure for [ascending]: neighbours are compared. *)
Fixpoint ascendingb (l : list Q) : bool :=
  match l with
  | a :: (b :: _) as t => Py.lt a b && ascendingb t
  | _ => true
  end.

(** The nearest stored position strictly above [y]: the least of the
    stored positions greater than [y], if there is one; and the nearest
    one strictly below. *)
Fixpoint nearest_above (pp : list Q) (y : Q) : option Q :=
  match pp with
  | [] => None
  | v :: rest =>
      let r := nearest_above rest y in
      if Py.lt y v
      then Some (match r with Some m => Py.min v m | None => v end)
      else r
  end.

Fixpoint nearest_below (pp : list Q) (y : Q) : option Q :=
  match pp with
  | [] => None
  | v :: rest =>
      let r := nearest_below rest y in
      if Py.lt v y
      then Some (match r with Some m => Py.max v m | None => v end)
      else r
  end.

(** The bound on either side: the neighbour, or the sentinel. *)
Definition upper_bound (pp : list Q) (y : Q) : Q :=
  match nearest_above pp y with Some n => n | None => SENTINEL_HIGH end.

Definition lower_bound (pp : list Q) (y : Q) : Q :=
  match nearest_below pp y with Some n => n | None => SENTINEL_LOW end.

(** The candidate computed by [cmd_TESTY] at the resolved value [y]
    with the history [pp] (lines 205-226 in sequence). *)
Definition candidate (pp : list Q) (y : Q) (gcmd : GCodeCommand) : exn + Q :=
  next_y_pos (snd (store_position pp y)) (fst (store_position pp y)) y gcmd.

(** The four step tokens. *)
Definition step_token (raw : string) : bool :=
  String.eqb raw "+" || String.eqb raw "++"
  || String.eqb raw "-" || String.eqb raw "--".

(** The [SPEED] parameter can be read: it is absent or a number. *)
Definition speed_param_ok (gcmd : GCodeCommand) : Prop :=
  match get_float_SPEED gcmd 5 with
  | inr _ => True
  | inl _ => False
  end.

(** The condition of [cmd_ACCEPT] as the code tests it, and as "every
    coordinate but the probed one" reads on the four coordinates. *)
Definition accept_condition (pos start : coord) : Prop :=
  pos_0 pos == pos_0 start /\ pos_1 pos == pos_1 start /\
  pos_2 pos < pos_2 start.

Definition accept_condition_all_coordinates (pos start : coord) : Prop :=
  pos_0 pos == pos_0 start /\ pos_1 pos == pos_1 start /\
  pos_3 pos == pos_3 start /\ pos_2 pos < pos_2 start.

(** The command table after the four names of a session are removed. *)
Definition released (m : gmap string handler) : gmap string handler :=
  delete "TESTY" (delete "ABORT" (delete "NEXT" (delete "ACCEPT" m))).

(** The lift-and-return moves to [y_pos] from the toolhead position
    [curpos], at speed [spd]. *)
Definition lift_and_return (curpos : coord) (y_pos spd : Q) : list event :=
  if Py.lt (pos_2 curpos) (y_pos + Y_BOB_MINIMUM)
  then [ManualMove [None; None; Some (y_pos + Y_BOB_MINIMUM)] spd;
        ManualMove [None; None; Some y_pos] spd]
  else [ManualMove [None; None; Some y_pos] spd].

(** The command table with the four names of a session in it. *)
Definition session_handlers (m : gmap string handler) : gmap string handler :=
  <["TESTY" := H_cmd_TESTY]> (<["ABORT" := H_cmd_ABORT]>
    (<["NEXT" := H_cmd_ACCEPT]> (<["ACCEPT" := H_cmd_ACCEPT]> m))).

(** The names under which a session registers its commands. *)
Definition session_commands : list string :=
  ["ACCEPT"; "NEXT"; "ABORT"; "TESTY"]%string.

(** The four names of a session are free. *)
Definition no_session (m : gmap string handler) : Prop :=
  m !! "ACCEPT" = None /\ m !! "NEXT" = None /\
  m !! "ABORT" = None /\ m !! "TESTY" = None.

Section Sessions.

Context {T : Type} `{Toolhead T}.

(** The value of the probed axis that the helper resolves in [s]. *)
Definition resolved_y (s : state T) : Q :=
  match get_kinematics_pos s with
  | (inr k, _) => kin_1 k
  | (inl _, _) => 0
  end.

(** The session that the constructor makes on a printer [p] whose
    command table has room for it: the helper and the printer after
    line 127. *)
Definition started (cb : callback) (spd : Q) (p : printer T)
  : BeltProbeHelper * printer T :=
  let start := get_position (toolhead p) in
  let th := flush_step_generation (toolhead p) in
  let kin := calc_position th in
  (Helper cb spd [] (Some (start, kin)) start,
   Printer (session_handlers (gcode_handlers p)) th
     (Status true (Some (kin_1 kin)) None None)
     (trace p ++ [RespondInfo MsgStarting;
                  RespondInfo (MsgYPosition None (kin_1 kin) None)])).

(** The states of a session: it starts with the constructor, goes on
    with [TESTY] commands, whatever their outcome, and in between
    anything may happen to the printer. *)
Inductive session : state T -> Prop :=
| session_start gcmd cb p h p' :
    BeltProbeHelper_init gcmd cb p = (inr h, p') ->
    session (State h p')
| session_testy gcmd s r s' :
    session s -> cmd_TESTY gcmd s = (r, s') -> session s'
| session_printer s w :
    session s -> session (State (self s) w).

(** The states in which a session is active: started, and not
    finalized.  A [TESTY] that returns keeps it active; so does one
    that raises for its parameter; a failed move finalizes.  In between
    the toolhead may be moved by other commands. *)
Inductive active : state T -> Prop :=
| active_start gcmd cb p h p' :
    BeltProbeHelper_init gcmd cb p = (inr h, p') ->
    active (State h p')
| active_testy gcmd s s' :
    active s -> cmd_TESTY gcmd s = (inr tt, s') -> active s'
| active_testy_error gcmd s e s' :
    active s -> cmd_TESTY gcmd s = (inl e, s') ->
    e <> CommandError MsgMoveFailed -> active s'
| active_toolhead s th :
    active s -> active (State (self s) (set_toolhead th (world s))).

End Sessions.

(** ** A toolhead to run the helper on

    A move sets the axes it names.  The kinematics report the first
    three coordinates as they are, or with the second and third
    exchanged when [sim_swap_yz] is set, so that the axis moved by
    [move_y] is the one read back by [cmd_TESTY].  [sim_jammed] makes
    every move raise. *)
Record sim := Sim { sim_pos : coord; sim_jammed : bool; sim_swap_yz : bool }.

Definition sim_axis (target : list (option Q)) (i : nat) (old : Q) : Q :=
  match nth i target None with Some v => v | None => old end.

Definition sim_move (target : list (option Q)) (spd : Q) (s : sim)
  : sim * bool :=
  if sim_jammed s then (s, false)
  else
    let c := sim_pos s in
    (Sim (Coord (sim_axis target 0 (pos_0 c)) (sim_axis target 1 (pos_1 c))
            (sim_axis target 2 (pos_2 c)) (pos_3 c))
       false (sim_swap_yz s), true).

Definition sim_calc_position (s : sim) : kin_pos :=
  let c := sim_pos s in
  if sim_swap_yz s then KinPos (pos_0 c) (pos_2 c) (pos_1 c)
  else KinPos (pos_0 c) (pos_1 c) (pos_2 c).

#[export] Instance sim_toolhead : Toolhead sim := {
  get_position s := sim_pos s;
  manual_move := sim_move;
  flush_step_generation s := s;
  calc_position := sim_calc_position
}.

(** A printer at rest at [c] with an empty command table. *)
Definition sim_printer (c : coord) (jammed swap : bool) : printer sim :=
  Printer ∅ (Sim c jammed swap) (Status false None None None) [].

(** Command lines: one with [Y=raw], where [v] is the number that
    [raw] spells, if it spells one; and one without parameters. *)
Definition gcmd_Y (raw : string) (v : option Q) : GCodeCommand :=
  {| get_Y := inr raw;
     get_float_Y :=
       match v with
       | Some d => inr d
       | None => inl (CommandError (MsgParameter raw))
       end;
     get_float_SPEED := fun default => inr default |}.

Definition gcmd_plain : GCodeCommand :=
  {| get_Y := inl (CommandError (MsgParameter "Y"));
     get_float_Y := inl (CommandError (MsgParameter "Y"));
     get_float_SPEED := fun default => inr default |}.

(** The session started by a plain command on a printer at rest. *)
Definition sim_session (c : coord) (swap : bool) : state sim :=
  let r := started manual_probe_finalize 5 (sim_printer c false swap) in
  State (fst r) (snd r).

(** The same session after a sequence of [TESTY] commands. *)
Definition sim_after (c : coord) (swap : bool) (gcmds : list GCodeCommand)
  : state sim :=
  fold_left (fun s gcmd => snd (cmd_TESTY gcmd s)) gcmds (sim_session c swap).

(** ** The [BeltProbe] object (lines 11-83)

    Its methods can fail in ways of Python itself, besides the
    exceptions of Klipper. *)
Inductive py_error :=
| Raised (e : exn)
| NameError (name : string)
| AttributeError (attr : string)
| TypeError.

(** The text ["%.3f" % (v,)], kept as the number it formats. *)
Inductive formatted := Fmt3 (v : Q).

(** The texts of [BeltProbe]: "Use MANUEL_PROBE for other kinematics",
    "Y position is %.3f", "stepper_y: position_endstop: %.3f ..." and
    "Nothing to do: Y Offset is 0". *)
Inductive belt_message :=
| MsgUseManualProbe
| MsgYPositionIs (v : formatted)
| MsgPositionEndstop (v : formatted)
| MsgNothingToDo.

(** The handlers that [BeltProbe.__init__] registers. *)
Inductive belt_handler :=
| H_cmd_MANUAL_PROBE
| H_cmd_Y_ENDSTOP_CALIBRATE
| H_cmd_Y_OFFSET_APPLY_ENDSTOP.

(** The configuration handed to [load_config], by what its accessors
    return or raise: [config_kinematics] is
    [config.getsection('printer').get('kinematics')] and
    [config_position_endstop] is
    [config.getsection('stepper_y').getfloat('position_endstop', None,
    note_valid=False)]. *)
Record ConfigWrapper := {
  config_kinematics : exn + string;
  config_position_endstop : exn + option Q
}.

(** The attributes that the methods read.  An attribute that was never
    assigned is [None]; [attr_y_position_endstop] holds [Some None] when
    it was assigned [None]. *)
Record BeltProbe := BeltProbeObject {
  attr_y_position_endstop : option (option Q);
  attr_status : option status
}.

(** The printer as [BeltProbe] meets it: the names it has registered,
    what it has told the operator, the values handed to
    [configfile.set] by section and option, the Y component of
    [gcode_move.get_status()['homing_origin']], and the printer of the
    helper.  The names of [BeltProbe] and those of a session are
    different names, so the two parts of the command table are kept
    apart. *)
Record klippy (T : Type) := Klippy {
  belt_commands : gmap string belt_handler;
  belt_responses : list belt_message;
  configfile : gmap (string * string) formatted;
  homing_origin_y : Q;
  helper_printer : printer T
}.
Arguments Klippy {T}.
Arguments belt_commands {T}.
Arguments belt_responses {T}.
Arguments configfile {T}.
Arguments homing_origin_y {T}.
Arguments helper_printer {T}.

(** The names bound at the top level of the module, in the order of
    the source (lines 7, 8, 11, 88, 98, 99, 104 and 243).  A name that
    a function body uses and that is not bound here, nor a builtin,
    raises [NameError] when the body runs. *)
Inductive global_value :=
| G_module
| G_class_BeltProbe
| G_function_verify_no_manual_probe
| G_float (v : Q)
| G_class_BeltProbeHelper
| G_function_load_config.

Definition module_globals : list (string * global_value) :=
  [("logging", G_module);
   ("bisect", G_module);
   ("BeltProbe", G_class_BeltProbe);
   ("verify_no_manual_probe", G_function_verify_no_manual_probe);
   ("Y_BOB_MINIMUM", G_float Y_BOB_MINIMUM);
   ("BISECT_MAX", G_float BISECT_MAX);
   ("BeltProbeHelper", G_class_BeltProbeHelper);
   ("load_config", G_function_load_config)]%string.

Fixpoint lookup_name (name : string) (table : list (string * global_value))
  : option global_value :=
  match table with
  | [] => None
  | (n, v) :: rest => if String.eqb n name then Some v else lookup_name name rest
  end.

Section BeltProbeMethods.

Context {T : Type} `{Toolhead T}.

Definition belt_respond (m : belt_message) (k : klippy T) : klippy T :=
  Klippy (belt_commands k) (belt_responses k ++ [m]) (configfile k)
    (homing_origin_y k) (helper_printer k).

(** [configfile.set(section, option, value)]. *)
Definition configfile_set (section option : string) (value : formatted)
    (k : klippy T) : klippy T :=
  Klippy (belt_commands k) (belt_responses k)
    (<[(section, option) := value]> (configfile k))
    (homing_origin_y k) (helper_printer k).

Definition set_helper_printer (p : printer T) (k : klippy T) : klippy T :=
  Klippy (belt_commands k) (belt_responses k) (configfile k)
    (homing_origin_y k) p.

(** Modelled from the spec: [gcode.register_command(cmd, func)] with a
    handler, on the names of [BeltProbe]: the name must be free. *)
Definition belt_register (cmd : string) (func : belt_handler) (k : klippy T)
  : (py_error + unit) * klippy T :=
  match belt_commands k !! cmd with
  | Some _ => (inl (Raised (ConfigError (MsgAlreadyRegistered cmd))), k)
  | None =>
      (inr tt,
       Klippy (<[cmd := func]> (belt_commands k)) (belt_responses k)
         (configfile k) (homing_origin_y k) (helper_printer k))
  end.

(** Lines 39-45. *)
Definition BeltProbe_reset_status (self : BeltProbe) : BeltProbe :=
  BeltProbeObject (attr_y_position_endstop self)
    (Some (Status false None None None)).

(** Lines 12-33.  The object starts without the two attributes; an
    exception leaves no object. *)
Definition BeltProbe_init (config : ConfigWrapper) (k : klippy T)
  : (py_error + BeltProbe) * klippy T :=
  let self := BeltProbeObject None None in
  match belt_register "BELT_PROBE" H_cmd_MANUAL_PROBE k with
  | (inl e, k) => (inl e, k)
  | (inr _, k) =>
      match config_kinematics config with
      | inl e => (inl (Raised e), k)
      | inr kinematics =>
          if negb (String.eqb "belt" kinematics)
          then (inr self, belt_respond MsgUseManualProbe k)
          else
            match config_position_endstop config with
            | inl e => (inl (Raised e), k)
            | inr endstop =>
                let self := BeltProbeObject (Some endstop) (attr_status self) in
                match
                  belt_register "Y_ENDSTOP_CALIBRATE"
                    H_cmd_Y_ENDSTOP_CALIBRATE k
                with
                | (inl e, k) => (inl e, k)
                | (inr _, k) =>
                    match
                      belt_register "Y_OFFSET_APPLY_ENDSTOP"
                        H_cmd_Y_OFFSET_APPLY_ENDSTOP k
                    with
                    | (inl e, k) => (inl e, k)
                    | (inr _, k) => (inr (BeltProbe_reset_status self), k)
                    end
                end
            end
      end
  end.

(** Lines 243-244. *)
Definition load_config (config : ConfigWrapper) (k : klippy T)
  : (py_error + BeltProbe) * klippy T :=
  BeltProbe_init config k.

(** Lines 47-48. *)
Definition BeltProbe_get_status (self : BeltProbe) : py_error + status :=
  match attr_status self with
  | Some st => inr st
  | None => inl (AttributeError "status")
  end.

(** [self.y_position_endstop - v]: the attribute must exist, and [None]
    cannot be subtracted from. *)
Definition endstop_minus (self : BeltProbe) (v : Q) : py_error + Q :=
  match attr_y_position_endstop self with
  | None => inl (AttributeError "y_position_endstop")
  | Some None => inl TypeError
  | Some (Some endstop) => inr (endstop - v)
  end.

(** Lines 35-37. *)
Definition BeltProbe_manual_probe_finalize (self : BeltProbe)
    (kin_pos : option kin_pos) (k : klippy T) : (py_error + unit) * klippy T :=
  match kin_pos with
  | Some kin => (inr tt, belt_respond (MsgYPositionIs (Fmt3 (kin_2 kin))) k)
  | None => (inr tt, k)
  end.

(** Lines 54-64. *)
Definition BeltProbe_y_endstop_finalize (self : BeltProbe)
    (kin_pos : option kin_pos) (k : klippy T) : (py_error + unit) * klippy T :=
  match kin_pos with
  | None => (inr tt, k)
  | Some kin =>
      match endstop_minus self (kin_1 kin) with
      | inl e => (inl e, k)
      | inr y_pos =>
          let k := belt_respond (MsgPositionEndstop (Fmt3 y_pos)) k in
          (inr tt, configfile_set "stepper_y" "position_endstop" (Fmt3 y_pos) k)
      end
  end.

(** Lines 70-82. *)
Definition cmd_Y_OFFSET_APPLY_ENDSTOP (self : BeltProbe)
    (gcmd : GCodeCommand) (k : klippy T) : (py_error + unit) * klippy T :=
  let offset := homing_origin_y k in
  if Py.eq offset 0 then (inr tt, belt_respond MsgNothingToDo k)
  else
    match endstop_minus self offset with
    | inl e => (inl e, k)
    | inr new_calibrate =>
        let k := belt_respond (MsgPositionEndstop (Fmt3 new_calibrate)) k in
        (inr tt,
         configfile_set "stepper_y" "position_endstop" (Fmt3 new_calibrate) k)
    end.

(** The call [f(self.printer, gcmd, callback)] of a value bound at the
    top level of the module.  Of these only the class [BeltProbeHelper]
    takes the three arguments: the call runs its constructor; the
    object it returns is held by the commands it has registered.  The
    other values are not callable or take other arguments. *)
Definition call_with_callback (f : global_value) (gcmd : GCodeCommand)
    (cb : callback) (k : klippy T) : (py_error + unit) * klippy T :=
  match f with
  | G_class_BeltProbeHelper =>
      match BeltProbeHelper_init gcmd cb (helper_printer k) with
      | (inl e, p) => (inl (Raised e), set_helper_printer p k)
      | (inr _, p) => (inr tt, set_helper_printer p k)
      end
  | _ => (inl TypeError, k)
  end.

(** Lines 51-52: the callee is the name [ManualProbeHelper]. *)
Definition cmd_MANUAL_PROBE (self : BeltProbe) (gcmd : GCodeCommand)
    (k : klippy T) : (py_error + unit) * klippy T :=
  match lookup_name "ManualProbeHelper" module_globals with
  | None => (inl (NameError "ManualProbeHelper"), k)
  | Some f => call_with_callback f gcmd manual_probe_finalize k
  end.

(** Lines 67-68. *)
Definition cmd_Y_ENDSTOP_CALIBRATE (self : BeltProbe) (gcmd : GCodeCommand)
    (k : klippy T) : (py_error + unit) * klippy T :=
  match lookup_name "ManualProbeHelper" module_globals with
  | None => (inl (NameError "ManualProbeHelper"), k)
  | Some f => call_with_callback f gcmd y_endstop_finalize k
  end.

(** The callback of a helper, as [BeltProbe] passes it. *)
Definition run_callback (self : BeltProbe) (cb : callback)
    (kin_pos : option kin_pos) (k : klippy T) : (py_error + unit) * klippy T :=
  match cb with
  | manual_probe_finalize => BeltProbe_manual_probe_finalize self kin_pos k
  | y_endstop_finalize => BeltProbe_y_endstop_finalize self kin_pos k
  end.

(** Modelled from the spec: the command dispatcher on the names of
    [BeltProbe]; a name without a handler is an unknown command. *)
Definition belt_dispatch (self : BeltProbe) (cmd : string)
    (gcmd : GCodeCommand) (k : klippy T) : (py_error + unit) * klippy T :=
  match belt_commands k !! cmd with
  | Some H_cmd_MANUAL_PROBE => cmd_MANUAL_PROBE self gcmd k
  | Some H_cmd_Y_ENDSTOP_CALIBRATE => cmd_Y_ENDSTOP_CALIBRATE self gcmd k
  | Some H_cmd_Y_OFFSET_APPLY_ENDSTOP => cmd_Y_OFFSET_APPLY_ENDSTOP self gcmd k
  | None => (inl (Raised (CommandError (MsgUnknownCommand cmd))), k)
  end.

(** A sequence of command lines, each dispatched whatever the outcome
    of the one before. *)
Definition belt_run (self : BeltProbe)
    (cmds : list (string * GCodeCommand)) (k : klippy T) : klippy T :=
  fold_left (fun k c => snd (belt_dispatch self (fst c) (snd c) k)) cmds k.

End BeltProbeMethods.

(** A printer for [BeltProbe] on the simulated toolhead. *)
Definition sim_klippy (c : coord) (offset : Q) : klippy sim :=
  Klippy ∅ [] ∅ offset (sim_printer c false true).

Definition config_of (kinematics : string) (endstop : option Q)
  : ConfigWrapper :=
  {| config_kinematics := inr kinematics;
     config_position_endstop := inr endstop |}.

(** The attributes set once by the constructor. *)
Definition constants (h : BeltProbeHelper) : callback * Q * coord :=
  (finalize_callback h, speed h, start_position h).

(** ** Conditions on the toolhead *)

(** Flushing the step generation does not change the commanded
    position that [toolhead.get_position()] returns. *)
Definition flush_keeps_position (T : Type) `{Toolhead T} : Prop :=
  forall th : T,
    coord_eqb (get_position (flush_step_generation th)) (get_position th)
    = true.


(** ** Double arithmetic

    A Python float is an IEEE 754 double: zero, or a number [m * 2^e]
    with an integer [m] of at most 53 binary digits and an exponent
    [e] from [-1074] to [971].  An operation on doubles returns its
    exact result rounded to the nearest double, and to the one with the
    even [m] of two doubles at the same distance; a decimal literal is
    the double nearest to it.  A result beyond the largest double is
    infinite in Python; here [round] keeps 53 digits at any magnitude,
    so the properties are stated for the doubles on which no operation
    gets there ([in_range]). *)
Module Double.

Definition pow2 (k : Z) : Q := 2 ^ k.

(** The binary order of magnitude of a positive [q]: the [k] with
    [2^(k-1) <= q < 2^k] ([mag_spec]).  The difference of the lengths
    of numerator and denominator is that [k] or one below it. *)
Definition mag (q : Q) : Z :=
  let k := (Z.log2 (Qnum q) - Z.log2 (Zpos (Qden q)))%Z in
  if Qle_bool (pow2 k) q then (k + 1)%Z else k.

(** The exponent of the last digit of a double of magnitude [k]: 53
    digits are kept, and none below [2^-1074]. *)
Definition fexp (k : Z) : Z := Z.max (k - 53) (-1074).

(** The nearest integer, and the even one of two at the same
    distance. *)
Definition nearest_even (x : Q) : Z :=
  let f := Qfloor x in
  match Qcompare (x - inject_Z f) (1 # 2) with
  | Lt => f
  | Gt => (f + 1)%Z
  | Eq => if Z.even f then f else (f + 1)%Z
  end.

(** Rounding to the nearest double, of a number that is not negative
    and of any number: rounding is symmetric around zero. *)
Definition round_pos (q : Q) : Q :=
  let e := fexp (mag q) in
  inject_Z (nearest_even (q * pow2 (- e))) * pow2 e.

Definition round (q : Q) : Q :=
  if Qle_bool 0 q then round_pos q else - round_pos (- q).

(** The doubles of magnitude below [2^1023].  The sum of two of them
    is at most the largest double, [(2^53 - 1) * 2^971]: on them no
    operation of [next_y_pos] with a step token overflows. *)
Definition in_range (v : Q) : Prop := round v == v /\ Qabs v < pow2 1023.

(** A decision procedure for [in_range]. *)
Definition in_rangeb (v : Q) : bool :=
  Qeq_bool (round v) v && negb (Qle_bool (pow2 1023) (Qabs v)).

(** [a + b], [a - b] and [a / b] on floats. *)
Definition add (a b : Q) : Q := round (a + b).
Definition sub (a b : Q) : Q := round (a - b).
Definition div (a b : Q) : Q := round (a / b).

(** The literals [0.200], [9999999999999.9] and [-9999999999999.9]. *)
Definition BISECT_MAX : Q := round (1 # 5).
Definition SENTINEL_HIGH : Q := round (99999999999999 # 10).
Definition SENTINEL_LOW : Q := - SENTINEL_HIGH.

(** Lines 210-226 in double arithmetic; [2.] is the double [2]. *)
Definition next_y_pos (pp : list Q) (insert_pos : nat) (y_pos : Q)
    (gcmd : GCodeCommand) : exn + Q :=
  match get_Y gcmd with
  | inl e => inl e
  | inr req =>
      if String.eqb req "+" || String.eqb req "++" then
        let check_y := SENTINEL_HIGH in
        let check_y :=
          if (insert_pos <? length pp - 1)%nat
          then nth (insert_pos + 1) pp 0 else check_y in
        let check_y :=
          if String.eqb req "+" then div (add check_y y_pos) 2
          else check_y in
        inr (Py.min check_y (add y_pos BISECT_MAX))
      else if String.eqb req "-" || String.eqb req "--" then
        let check_y := SENTINEL_LOW in
        let check_y :=
          if (0 <? insert_pos)%nat
          then nth (insert_pos - 1) pp 0 else check_y in
        let check_y :=
          if String.eqb req "-" then div (add check_y y_pos) 2
          else check_y in
        inr (Py.max check_y (sub y_pos BISECT_MAX))
      else
        match get_float_Y gcmd with
        | inl e => inl e
        | inr d => inr (add y_pos d)
        end
  end.

(** Lines 205-226 in sequence: storing the value takes comparisons
    only. *)
Definition candidate (pp : list Q) (y : Q) (gcmd : GCodeCommand) : exn + Q :=
  next_y_pos (snd (store_position pp y)) (fst (store_position pp y)) y gcmd.

(** The bound on either side: the neighbour, or the sentinel. *)
Definition upper_bound (pp : list Q) (y : Q) : Q :=
  match nearest_above pp y with Some n => n | None => SENTINEL_HIGH end.

Definition lower_bound (pp : list Q) (y : Q) : Q :=
  match nearest_below pp y with Some n => n | None => SENTINEL_LOW end.

End Double.

(** A command line whose [SPEED] parameter is not a number. *)
Definition gcmd_SPEED (raw : string) : GCodeCommand :=
  {| get_Y := inl (CommandError (MsgParameter "Y"));
     get_float_Y := inl (CommandError (MsgParameter "Y"));
     get_float_SPEED := fun _ => inl (CommandError (MsgParameter raw)) |}.

(** * Properties *)

(** ** Comparisons, minimum and maximum *)

Lemma lt_spec a b : Py.lt a b = true <-> a < b.
Proof.
  unfold Py.lt. rewrite negb_true_iff. split; intros E.
  - destruct (Qlt_le_dec a b) as [L|L]; [exact L|].
    apply Qle_bool_iff in L. congruence.
  - destruct (Qle_bool b a) eqn:F; [|reflexivity].
    apply Qle_bool_iff in F. lra.
Qed.

Lemma lt_false a b : Py.lt a b = false <-> b <= a.
Proof.
  unfold Py.lt. rewrite negb_false_iff. apply Qle_bool_iff.
Qed.

Lemma ascending_le l i j :
  ascending l -> (i <= j < length l)%nat -> nth i l 0 <= nth j l 0.
Proof.
  intros A [L1 L2]. destruct (decide (i = j)) as [->|N].
  - lra.
  - apply Qlt_le_weak, A. lia.
Qed.

Lemma bisect_loop_spec a x : ascending a ->
  forall fuel lo hi,
    (lo <= hi <= length a)%nat -> (hi - lo <= fuel)%nat ->
    (forall i, (i < lo)%nat -> nth i a 0 < x) ->
    (forall i, (hi <= i < length a)%nat -> x <= nth i a 0) ->
    let r := Py.bisect_loop fuel a x lo hi in
    (lo <= r <= hi)%nat /\
    (forall i, (i < r)%nat -> nth i a 0 < x) /\
    (forall i, (r <= i < length a)%nat -> x <= nth i a 0).
Proof.
  intros A. induction fuel as [|fuel IH]; intros lo hi B F L U; cbn [Py.bisect_loop].
  - assert (lo = hi) as -> by lia. auto with lia.
  - destruct (lo <? hi)%nat eqn:E.
    + apply Nat.ltb_lt in E.
      assert (lo <= (lo + hi) / 2 < hi)%nat as M.
      { split; [apply Nat.div_le_lower_bound | apply Nat.Div0.div_lt_upper_bound]; lia. }
      destruct (Py.lt (nth ((lo + hi) / 2) a 0) x) eqn:C.
      * apply lt_spec in C.
        destruct (IH ((lo + hi) / 2 + 1)%nat hi) as (R1 & R2 & R3);
          try lia; auto.
        { intros i Hi. eapply Qle_lt_trans; [|exact C].
          apply ascending_le; [exact A|lia]. }
        repeat split; auto; lia.
      * apply lt_false in C.
        destruct (IH lo ((lo + hi) / 2)%nat) as (R1 & R2 & R3);
          try lia; auto.
        { intros i Hi. eapply Qle_trans; [exact C|].
          apply ascending_le; [exact A|lia]. }
        repeat split; auto; lia.
    + apply Nat.ltb_ge in E. assert (lo = hi) as -> by lia. auto with lia.
Qed.

(** [bisect_loop] with fuel for the whole interval has run to the end
    of the loop: any other such amount of fuel gives the same index, on
    every list. *)
Lemma bisect_loop_fuel a x : forall fuel fuel' lo hi,
  (hi - lo <= fuel)%nat -> (hi - lo <= fuel')%nat ->
  Py.bisect_loop fuel a x lo hi = Py.bisect_loop fuel' a x lo hi.
Proof.
  induction fuel as [|fuel IH]; intros fuel' lo hi F F'.
  - destruct fuel' as [|fuel']; [reflexivity|]. cbn [Py.bisect_loop].
    destruct (Nat.ltb_spec lo hi); [lia|reflexivity].
  - cbn [Py.bisect_loop]. destruct (Nat.ltb_spec lo hi) as [L|L].
    + destruct fuel' as [|fuel']; [lia|]. cbn [Py.bisect_loop].
      destruct (Nat.ltb_spec lo hi); [|lia].
      assert (lo <= (lo + hi) / 2 < hi)%nat as M.
      { split; [apply Nat.div_le_lower_bound
               | apply Nat.Div0.div_lt_upper_bound]; lia. }
      destruct (Py.lt _ _); apply IH; lia.
    + destruct fuel' as [|fuel']; [reflexivity|]. cbn [Py.bisect_loop].
      destruct (Nat.ltb_spec lo hi); [lia|reflexivity].
Qed.

Lemma bisect_left_spec a x : ascending a ->
  let r := Py.bisect_left a x in
  (r <= length a)%nat /\
  (forall i, (i < r)%nat -> nth i a 0 < x) /\
  (forall i, (r <= i < length a)%nat -> x <= nth i a 0).
Proof.
  intros A. unfold Py.bisect_left.
  destruct (bisect_loop_spec a x A (length a) 0%nat (length a))
    as (R1 & R2 & R3); try lia; auto.
  repeat split; auto; lia.
Qed.

Lemma insert_length i x a : length (Py.insert i x a) = S (length a).
Proof.
  unfold Py.insert. rewrite length_app. cbn [length].
  rewrite length_take, length_drop. lia.
Qed.

Lemma insert_nth i x a k : (i <= length a)%nat ->
  nth k (Py.insert i x a) 0 =
  if (k <? i)%nat then nth k a 0
  else if (k =? i)%nat then x else nth (k - 1) a 0.
Proof.
  intros L. unfold Py.insert.
  assert (length (take i a) = i) as Lt by (rewrite length_take; lia).
  destruct (k <? i)%nat eqn:E1.
  - apply Nat.ltb_lt in E1. rewrite app_nth1 by lia.
    rewrite nth_firstn. apply Nat.ltb_lt in E1. rewrite E1. reflexivity.
  - apply Nat.ltb_ge in E1. rewrite app_nth2 by lia. rewrite Lt.
    destruct (k =? i)%nat eqn:E2.
    + apply Nat.eqb_eq in E2. subst k. rewrite Nat.sub_diag. reflexivity.
    + apply Nat.eqb_neq in E2.
      replace (k - i)%nat with (S (k - i - 1)) by lia. cbn [nth].
      rewrite nth_skipn. f_equal. lia.
Qed.

Lemma eq_spec a b : Py.eq a b = true <-> a == b.
Proof. apply Qeq_bool_iff. Qed.

Lemma ne_false a b : Py.ne a b = false <-> a == b.
Proof. unfold Py.ne. rewrite negb_false_iff. apply Qeq_bool_iff. Qed.

Lemma ne_true a b : Py.ne a b = true <-> ~ a == b.
Proof.
  unfold Py.ne. rewrite negb_true_iff. split.
  - intros E F. apply Qeq_bool_iff in F. congruence.
  - intros N. destruct (Qeq_bool a b) eqn:E; [|reflexivity].
    apply Qeq_bool_iff in E. contradiction.
Qed.

Lemma insert_ascending a x : ascending a ->
  let i := Py.bisect_left a x in
  ((length a <= i)%nat \/ ~ nth i a 0 == x) ->
  ascending (Py.insert i x a).
Proof.
  intros A i D. destruct (bisect_left_spec a x A) as (R1 & R2 & R3).
  change (Py.bisect_left a x) with i in R1, R2, R3.
  assert (forall k, (i <= k < length a)%nat -> x < nth k a 0) as R3'.
  { intros k Hk. destruct D as [D|D]; [lia|].
    destruct (decide (k = i)) as [->|N].
    - specialize (R3 i Hk). destruct (Qlt_le_dec x (nth i a 0)); [assumption|].
      exfalso. apply D. lra.
    - eapply Qle_lt_trans; [apply (R3 i); lia|]. apply A. lia. }
  intros j k. rewrite insert_length. intros Hjk.
  rewrite !insert_nth by assumption.
  destruct (Nat.ltb_spec j i) as [J1|J1];
    destruct (Nat.ltb_spec k i) as [K1|K1]; try lia.
  - apply A. lia.
  - destruct (Nat.eqb_spec k i) as [K2|K2].
    + apply R2. assumption.
    + eapply Qlt_trans; [apply R2; eassumption|]. apply R3'. lia.
  - destruct (Nat.eqb_spec j i) as [J2|J2];
      destruct (Nat.eqb_spec k i) as [K2|K2]; try lia.
    + apply R3'. lia.
    + apply A. lia.
Qed.

Lemma store_position_spec pp y : ascending pp ->
  let i := fst (store_position pp y) in
  let pp' := snd (store_position pp y) in
  ascending pp' /\ (i < length pp')%nat /\ nth i pp' 0 == y /\
  (forall v, In v pp -> In v pp') /\
  (forall v, In v pp' -> In v pp \/ v = y).
Proof.
  intros A. unfold store_position.
  destruct (bisect_left_spec pp y A) as (R1 & R2 & R3).
  set (i := Py.bisect_left pp y) in *.
  destruct ((length pp <=? i)%nat || Py.ne (nth i pp 0) y) eqn:E; cbn [fst snd].
  - apply orb_true_iff in E. rewrite Nat.leb_le, ne_true in E.
    split; [apply insert_ascending; assumption|].
    rewrite insert_length. split; [lia|].
    rewrite insert_nth by assumption.
    rewrite Nat.ltb_irrefl, Nat.eqb_refl. split; [reflexivity|].
    unfold Py.insert. split; intros v Hv.
    + rewrite <- (take_drop i pp) in Hv. apply in_app_or in Hv.
      apply in_or_app. cbn [In]. tauto.
    + apply in_app_or in Hv. cbn [In] in Hv.
      rewrite <- (take_drop i pp) at 1. rewrite in_app_iff.
      destruct Hv as [Hv|[Hv|Hv]]; auto.
  - apply orb_false_iff in E. rewrite Nat.leb_gt, ne_false in E.
    destruct E as [E1 E2]. repeat split; auto.
Qed.

Lemma min_Qmin a b : Py.min a b == Qmin a b.
Proof.
  unfold Py.min. destruct (Py.lt b a) eqn:E.
  - apply lt_spec in E. rewrite Q.min_r; [reflexivity|lra].
  - apply lt_false in E. rewrite Q.min_l; [reflexivity|assumption].
Qed.

Lemma max_Qmax a b : Py.max a b == Qmax a b.
Proof.
  unfold Py.max. destruct (Py.lt a b) eqn:E.
  - apply lt_spec in E. rewrite Q.max_r; [reflexivity|lra].
  - apply lt_false in E. rewrite Q.max_l; [reflexivity|assumption].
Qed.

Lemma nearest_above_spec pp y :
  match nearest_above pp y with
  | Some n => In n pp /\ y < n /\ forall v, In v pp -> y < v -> n <= v
  | None => forall v, In v pp -> v <= y
  end.
Proof.
  induction pp as [|a pp IH]; cbn [nearest_above].
  - intros v [].
  - destruct (Py.lt y a) eqn:E.
    + apply lt_spec in E. destruct (nearest_above pp y) as [m|].
      * destruct IH as (I1 & I2 & I3). unfold Py.min.
        destruct (Py.lt m a) eqn:F.
        -- apply lt_spec in F. split; [right; exact I1|]. split; [exact I2|].
           intros v [<-|Hv] Hy; [lra|auto].
        -- apply lt_false in F. split; [left; reflexivity|]. split; [exact E|].
           intros v [<-|Hv] Hy; [lra|]. specialize (I3 v Hv Hy). lra.
      * split; [left; reflexivity|]. split; [exact E|].
        intros v [<-|Hv] Hy; [lra|]. specialize (IH v Hv). lra.
    + apply lt_false in E. destruct (nearest_above pp y) as [m|].
      * destruct IH as (I1 & I2 & I3). split; [right; exact I1|].
        split; [exact I2|]. intros v [<-|Hv] Hy; [lra|auto].
      * intros v [<-|Hv]; auto.
Qed.

Lemma nearest_below_spec pp y :
  match nearest_below pp y with
  | Some n => In n pp /\ n < y /\ forall v, In v pp -> v < y -> v <= n
  | None => forall v, In v pp -> y <= v
  end.
Proof.
  induction pp as [|a pp IH]; cbn [nearest_below].
  - intros v [].
  - destruct (Py.lt a y) eqn:E.
    + apply lt_spec in E. destruct (nearest_below pp y) as [m|].
      * destruct IH as (I1 & I2 & I3). unfold Py.max.
        destruct (Py.lt a m) eqn:F.
        -- apply lt_spec in F. split; [right; exact I1|]. split; [exact I2|].
           intros v [<-|Hv] Hy; [lra|auto].
        -- apply lt_false in F. split; [left; reflexivity|]. split; [exact E|].
           intros v [<-|Hv] Hy; [lra|]. specialize (I3 v Hv Hy). lra.
      * split; [left; reflexivity|]. split; [exact E|].
        intros v [<-|Hv] Hy; [lra|]. specialize (IH v Hv). lra.
    + apply lt_false in E. destruct (nearest_below pp y) as [m|].
      * destruct IH as (I1 & I2 & I3). split; [right; exact I1|].
        split; [exact I2|]. intros v [<-|Hv] Hy; [lra|auto].
      * intros v [<-|Hv]; auto.
Qed.

Lemma ascending_index l i j : ascending l ->
  (i < length l)%nat -> (j < length l)%nat ->
  nth i l 0 < nth j l 0 -> (i < j)%nat.
Proof.
  intros A Hi Hj L. destruct (Nat.lt_ge_cases i j) as [C|C]; [exact C|].
  exfalso. pose proof (ascending_le l j i A ltac:(lia)). lra.
Qed.

(** The bound read by [cmd_TESTY] above the stored index. *)
Lemma upper_neighbor pp y : ascending pp ->
  let i := fst (store_position pp y) in
  let pp' := snd (store_position pp y) in
  (if (i <? length pp' - 1)%nat then nth (i + 1) pp' 0 else SENTINEL_HIGH)
  == upper_bound pp y /\
  ((i <? length pp' - 1)%nat = false <-> nearest_above pp y = None).
Proof.
  intros A i pp'.
  destruct (store_position_spec pp y A) as (A' & Li & Ei & I1 & I2).
  fold i in Li, Ei. fold pp' in A', Li, Ei, I1, I2.
  unfold upper_bound. pose proof (nearest_above_spec pp y) as S.
  destruct (nearest_above pp y) as [n|].
  - destruct S as (S1 & S2 & S3).
    destruct (In_nth _ _ 0 (I1 _ S1)) as (j & Lj & Ej).
    assert (i < j)%nat as Hij.
    { apply (ascending_index pp'); auto. rewrite Ej. lra. }
    destruct (Nat.ltb_spec i (length pp' - 1)) as [C|C]; [|lia].
    split; [|split; discriminate].
    assert (nth (i + 1) pp' 0 <= n) as U1.
    { rewrite <- Ej. apply ascending_le; [assumption|lia]. }
    assert (nth i pp' 0 < nth (i + 1) pp' 0) as U2 by (apply A'; lia).
    destruct (I2 (nth (i + 1) pp' 0)) as [U3|U3].
    { apply nth_In. lia. }
    + specialize (S3 _ U3). lra.
    + rewrite U3 in U2. lra.
  - destruct (Nat.ltb_spec i (length pp' - 1)) as [C|C].
    + exfalso.
      assert (nth i pp' 0 < nth (i + 1) pp' 0) as U2 by (apply A'; lia).
      destruct (I2 (nth (i + 1) pp' 0)) as [U3|U3].
      { apply nth_In. lia. }
      * specialize (S _ U3). lra.
      * rewrite U3 in U2. lra.
    + split; [reflexivity|tauto].
Qed.

Lemma lower_neighbor pp y : ascending pp ->
  let i := fst (store_position pp y) in
  let pp' := snd (store_position pp y) in
  (if (0 <? i)%nat then nth (i - 1) pp' 0 else SENTINEL_LOW)
  == lower_bound pp y /\
  ((0 <? i)%nat = false <-> nearest_below pp y = None).
Proof.
  intros A i pp'.
  destruct (store_position_spec pp y A) as (A' & Li & Ei & I1 & I2).
  fold i in Li, Ei. fold pp' in A', Li, Ei, I1, I2.
  unfold lower_bound. pose proof (nearest_below_spec pp y) as S.
  destruct (nearest_below pp y) as [n|].
  - destruct S as (S1 & S2 & S3).
    destruct (In_nth _ _ 0 (I1 _ S1)) as (j & Lj & Ej).
    assert (j < i)%nat as Hij.
    { apply (ascending_index pp'); auto. rewrite Ej. lra. }
    destruct (Nat.ltb_spec 0 i) as [C|C]; [|lia].
    split; [|split; discriminate].
    assert (n <= nth (i - 1) pp' 0) as U1.
    { rewrite <- Ej. apply ascending_le; [assumption|lia]. }
    assert (nth (i - 1) pp' 0 < nth i pp' 0) as U2 by (apply A'; lia).
    destruct (I2 (nth (i - 1) pp' 0)) as [U3|U3].
    { apply nth_In. lia. }
    + specialize (S3 _ U3). lra.
    + rewrite U3 in U2. lra.
  - destruct (Nat.ltb_spec 0 i) as [C|C].
    + exfalso.
      assert (nth (i - 1) pp' 0 < nth i pp' 0) as U2 by (apply A'; lia).
      destruct (I2 (nth (i - 1) pp' 0)) as [U3|U3].
      { apply nth_In. lia. }
      * specialize (S _ U3). lra.
      * rewrite U3 in U2. lra.
    + split; [reflexivity|tauto].
Qed.

Lemma ascending_tail a l : ascending (a :: l) -> ascending l.
Proof.
  intros A i j Hij. apply (A (S i) (S j)). cbn [length]. lia.
Qed.

Lemma ascending_sorted l : ascending l -> StronglySorted Qle l.
Proof.
  induction l as [|a l IH]; intros A; constructor.
  - apply IH. eapply ascending_tail, A.
  - apply List.Forall_forall. intros v Hv.
    destruct (In_nth _ _ 0 Hv) as (j & Lj & <-).
    apply Qlt_le_weak. apply (A 0%nat (S j)). cbn [length]. lia.
Qed.

Lemma sorted_nth_le l : StronglySorted Qle l ->
  forall i j, (i <= j < length l)%nat -> nth i l 0 <= nth j l 0.
Proof.
  induction 1 as [|a l S IH F]; intros i j Hij; cbn [length] in Hij.
  - lia.
  - destruct j as [|j]; destruct i as [|i]; cbn [nth]; try lia.
    + lra.
    + rewrite List.Forall_forall in F. apply F, nth_In. lia.
    + apply IH. lia.
Qed.

Lemma sorted_distinct_ascending l : sorted_distinct l <-> ascending l.
Proof.
  split.
  - intros [S D] i j Hij.
    pose proof (sorted_nth_le l S i j ltac:(lia)) as L.
    destruct (Qeq_dec (nth i l 0) (nth j l 0)) as [E|N].
    + apply D in E; lia.
    + lra.
  - intros A. split; [apply ascending_sorted, A|].
    intros i j Hi Hj E.
    destruct (Nat.lt_trichotomy i j) as [C|[C|C]]; [|exact C|].
    + pose proof (A i j ltac:(lia)). lra.
    + pose proof (A j i ltac:(lia)). lra.
Qed.

Lemma next_y_pos_fine_up pp i y gcmd : get_Y gcmd = inr "+"%string ->
  next_y_pos pp i y gcmd =
  inr (Py.min
         (((if (i <? length pp - 1)%nat then nth (i + 1) pp 0
            else SENTINEL_HIGH) + y) / 2)
         (y + BISECT_MAX)).
Proof. intros E. unfold next_y_pos. rewrite E. reflexivity. Qed.

Lemma next_y_pos_coarse_up pp i y gcmd : get_Y gcmd = inr "++"%string ->
  next_y_pos pp i y gcmd =
  inr (Py.min
         (if (i <? length pp - 1)%nat then nth (i + 1) pp 0 else SENTINEL_HIGH)
         (y + BISECT_MAX)).
Proof. intros E. unfold next_y_pos. rewrite E. reflexivity. Qed.

Lemma next_y_pos_fine_down pp i y gcmd : get_Y gcmd = inr "-"%string ->
  next_y_pos pp i y gcmd =
  inr (Py.max
         (((if (0 <? i)%nat then nth (i - 1) pp 0 else SENTINEL_LOW) + y) / 2)
         (y - BISECT_MAX)).
Proof. intros E. unfold next_y_pos. rewrite E. reflexivity. Qed.

Lemma next_y_pos_coarse_down pp i y gcmd : get_Y gcmd = inr "--"%string ->
  next_y_pos pp i y gcmd =
  inr (Py.max
         (if (0 <? i)%nat then nth (i - 1) pp 0 else SENTINEL_LOW)
         (y - BISECT_MAX)).
Proof. intros E. unfold next_y_pos. rewrite E. reflexivity. Qed.

Lemma next_y_pos_offset pp i y gcmd raw d :
  get_Y gcmd = inr raw -> step_token raw = false ->
  get_float_Y gcmd = inr d ->
  next_y_pos pp i y gcmd = inr (y + d).
Proof.
  intros E N F. unfold next_y_pos. rewrite E, F.
  unfold step_token in N. apply orb_false_iff in N. destruct N as [N N4].
  apply orb_false_iff in N. destruct N as [N N3].
  apply orb_false_iff in N. destruct N as [N1 N2].
  rewrite N1, N2, N3, N4. reflexivity.
Qed.

Lemma ascendingb_sound l : ascendingb l = true -> ascending l.
Proof.
  induction l as [|a l IH]; intros E i j Hij.
  - cbn [length] in Hij. lia.
  - destruct l as [|b t].
    + cbn [length] in Hij. lia.
    + cbn [ascendingb] in E. apply andb_true_iff in E. destruct E as [E1 E2].
      apply lt_spec in E1. specialize (IH E2).
      cbn [length] in Hij. destruct j as [|j]; [lia|].
      destruct i as [|i].
      * change (a < nth j (b :: t) 0).
        eapply Qlt_le_trans; [exact E1|].
        apply (ascending_le (b :: t) 0%nat j IH). cbn [length]. lia.
      * change (nth i (b :: t) 0 < nth j (b :: t) 0).
        apply IH. cbn [length]. lia.
Qed.

Lemma sorted_distinct_check l : ascendingb l = true -> sorted_distinct l.
Proof. intros E. apply sorted_distinct_ascending, ascendingb_sound, E. Qed.

Section Candidate.

Variables (pp : list Q) (y : Q) (gcmd : GCodeCommand).
Hypothesis pp_ascending : ascending pp.

Lemma candidate_coarse_up : get_Y gcmd = inr "++"%string ->
  exists c, candidate pp y gcmd = inr c /\
    c == Qmin (y + BISECT_MAX) (upper_bound pp y).
Proof.
  intros E. destruct (upper_neighbor pp y pp_ascending) as [U _].
  eexists. split; [apply (next_y_pos_coarse_up _ _ _ _ E)|].
  rewrite min_Qmin, U. apply Q.min_comm.
Qed.

Lemma candidate_coarse_down : get_Y gcmd = inr "--"%string ->
  exists c, candidate pp y gcmd = inr c /\
    c == Qmax (y - BISECT_MAX) (lower_bound pp y).
Proof.
  intros E. destruct (lower_neighbor pp y pp_ascending) as [L _].
  eexists. split; [apply (next_y_pos_coarse_down _ _ _ _ E)|].
  rewrite max_Qmax, L. apply Q.max_comm.
Qed.

Lemma candidate_fine_up : get_Y gcmd = inr "+"%string ->
  exists c, candidate pp y gcmd = inr c /\
    c == Qmin ((upper_bound pp y + y) / 2) (y + BISECT_MAX).
Proof.
  intros E. destruct (upper_neighbor pp y pp_ascending) as [U _].
  eexists. split; [apply (next_y_pos_fine_up _ _ _ _ E)|].
  rewrite min_Qmin, U. reflexivity.
Qed.

Lemma candidate_fine_down : get_Y gcmd = inr "-"%string ->
  exists c, candidate pp y gcmd = inr c /\
    c == Qmax ((lower_bound pp y + y) / 2) (y - BISECT_MAX).
Proof.
  intros E. destruct (lower_neighbor pp y pp_ascending) as [L _].
  eexists. split; [apply (next_y_pos_fine_down _ _ _ _ E)|].
  rewrite max_Qmax, L. reflexivity.
Qed.

End Candidate.

(** ** Running the methods *)

Section Runs.

Context {T : Type} `{Toolhead T}.

Ltac open_state s :=
  let cb := fresh "cb" in let spd := fresh "spd" in
  let pp := fresh "pp" in let cache := fresh "cache" in
  let start := fresh "start" in let hd := fresh "hd" in
  let th := fresh "th" in let st := fresh "st" in let tr := fresh "tr" in
  destruct s as [[cb spd pp cache start] [hd th st tr]].

Ltac run :=
  cbv beta iota zeta delta
    [bind gets modify modify_self on_world ret raise when of_result
     try_except respond_info reset_status register_command
     toolhead_manual_move
     set_last_pos set_past_positions set_handlers set_toolhead set_status
     emit self world finalize_callback speed past_positions last_pos
     start_position gcode_handlers toolhead manual_probe_status trace].

(** [get_kinematics_pos] returns, and touches the cache and the toolhead
    only. *)
Lemma get_kinematics_pos_run (s : state T) :
  exists k c th,
    get_kinematics_pos s =
    (inr k, State (set_last_pos c (self s)) (set_toolhead th (world s))).
Proof.
  open_state s. unfold get_kinematics_pos. run.
  destruct cache as [[c k]|].
  - destruct (coord_eqb _ _); run.
    + exists k, (Some (c, k)), th. reflexivity.
    + eexists _, _, _. reflexivity.
  - run. eexists _, _, _. reflexivity.
Qed.

Ltac step_kin :=
  match goal with
  | |- context [get_kinematics_pos ?x] =>
      let k := fresh "k" in let c := fresh "c" in let th := fresh "th" in
      let E := fresh "E" in
      destruct (get_kinematics_pos_run x) as (k & c & th & E);
      rewrite E; clear E
  end.

Lemma finalize_run (success : bool) (s : state T) :
  exists k c th,
    finalize success s =
    (inr tt,
     State (set_last_pos c (self s))
       (Printer (released (gcode_handlers (world s))) th
          (Status false None None None)
          (trace (world s) ++
           [FinalizeCallback (finalize_callback (self s)) k]))) /\
    (success = false ->
       k = None /\ c = last_pos (self s) /\ th = toolhead (world s)) /\
    (success = true -> is_Some k).
Proof.
  open_state s. unfold finalize. run. destruct success.
  - step_kin. run.
    eexists (Some _), _, _. split; [reflexivity|]. split; [discriminate|eauto].
  - run. eexists None, _, _. split; [reflexivity|].
    split; [auto|discriminate].
Qed.


(** The moves of [move_y] when none of them fails: the state changes in
    the toolhead and in the trace only. *)
Lemma move_y_ok (y_pos : Q) (s s' : state T) :
  move_y y_pos s = (inr tt, s') ->
  exists th,
    s' = State (self s)
           (Printer (gcode_handlers (world s)) th
              (manual_probe_status (world s))
              (trace (world s) ++
               lift_and_return (get_position (toolhead (world s))) y_pos
                 (speed (self s)))).
Proof.
  open_state s. unfold move_y, lift_and_return. run.
  destruct (Py.lt _ _); run.
  - destruct (manual_move _ _ _) as [th1 ok1]. destruct ok1; run.
    + destruct (manual_move _ _ _) as [th2 ok2]. destruct ok2; run.
      * intros [= <-]. exists th2. rewrite <- app_assoc. reflexivity.
      * match goal with |- context [finalize false ?x] =>
          destruct (finalize_run false x) as (k & c & th' & E & _) end.
        rewrite E. discriminate.
    + match goal with |- context [finalize false ?x] =>
        destruct (finalize_run false x) as (k & c & th' & E & _) end.
      rewrite E. discriminate.
  - destruct (manual_move _ _ _) as [th2 ok2]. destruct ok2; run.
    + intros [= <-]. exists th2. reflexivity.
    + match goal with |- context [finalize false ?x] =>
        destruct (finalize_run false x) as (k & c & th' & E & _) end.
      rewrite E. discriminate.
Qed.

(** A move that fails finalizes the session as a failure and raises the
    toolhead's error again.  The moves commanded up to the failure are
    the first, or the first two, of the lift-and-return moves. *)
Lemma move_y_error (y_pos : Q) (s s' : state T) (e : exn) :
  move_y y_pos s = (inl e, s') ->
  e = CommandError MsgMoveFailed /\
  exists th n,
    s' = State (self s)
           (Printer (released (gcode_handlers (world s))) th
              (Status false None None None)
              (trace (world s) ++
               take (S n)
                 (lift_and_return (get_position (toolhead (world s))) y_pos
                    (speed (self s))) ++
               [FinalizeCallback (finalize_callback (self s)) None])).
Proof.
  open_state s. unfold move_y, lift_and_return. run.
  destruct (Py.lt _ _); run.
  - destruct (manual_move _ _ _) as [th1 ok1]. destruct ok1; run.
    + destruct (manual_move _ _ _) as [th2 ok2]. destruct ok2; run.
      * discriminate.
      * match goal with |- context [finalize false ?x] =>
          destruct (finalize_run false x) as (k & c & th' & E & F & _) end.
        destruct (F eq_refl) as (-> & -> & ->). rewrite E. run.
        intros [= <- <-]. split; [reflexivity|].
        eexists _, 1%nat. cbn [take]. rewrite <- !app_assoc. reflexivity.
    + match goal with |- context [finalize false ?x] =>
        destruct (finalize_run false x) as (k & c & th' & E & F & _) end.
      destruct (F eq_refl) as (-> & -> & ->). rewrite E. run.
      intros [= <- <-]. split; [reflexivity|].
      eexists _, 0%nat. cbn [take]. rewrite <- !app_assoc. reflexivity.
  - destruct (manual_move _ _ _) as [th2 ok2]. destruct ok2; run.
    + discriminate.
    + match goal with |- context [finalize false ?x] =>
        destruct (finalize_run false x) as (k & c & th' & E & F & _) end.
      destruct (F eq_refl) as (-> & -> & ->). rewrite E. run.
      intros [= <- <-]. split; [reflexivity|].
      eexists _, 0%nat. cbn [take]. rewrite <- !app_assoc. reflexivity.
Qed.

(** What [report_y_status] does: it resolves the position, warns when
    asked to and the value is the previous one, and publishes the value
    with its neighbours. *)
Lemma report_y_status_run (warn : bool) (prev : option Q) (s : state T) :
  exists c th,
    let y := resolved_y s in
    let lo := fst (recent_positions (past_positions (self s)) y) in
    let hi := snd (recent_positions (past_positions (self s)) y) in
    report_y_status warn prev s =
    (inr tt,
     State (set_last_pos c (self s))
       (Printer (gcode_handlers (world s)) th (Status true (Some y) lo hi)
          (trace (world s) ++
           (if warn && match prev with
                       | Some v => Py.eq y v
                       | None => false
                       end
            then [RespondInfo MsgNoChangeWarning] else []) ++
           [RespondInfo (MsgYPosition lo y hi)]))).
Proof.
  unfold report_y_status, resolved_y.
  destruct (get_kinematics_pos_run s) as (k & c & th & E).
  unfold bind at 1. rewrite E. open_state s. run.
  exists c, th.
  destruct (warn && _); run;
    destruct (recent_positions pp (kin_1 k)) as [lo hi];
    cbn [fst snd app]; rewrite <- ?app_assoc; reflexivity.
Qed.

(** [cmd_TESTY] in steps: resolve, remember, compute the candidate,
    move, report. *)
Lemma cmd_TESTY_run (gcmd : GCodeCommand) (s : state T) :
  exists c th,
    snd (get_kinematics_pos s) =
    State (set_last_pos c (self s)) (set_toolhead th (world s)) /\
    let y := resolved_y s in
    let pp := past_positions (self s) in
    let s1 :=
      State (set_past_positions (snd (store_position pp y))
               (set_last_pos c (self s)))
        (set_toolhead th (world s)) in
    cmd_TESTY gcmd s =
    match candidate pp y gcmd with
    | inl e => (inl e, s1)
    | inr next =>
        match move_y next s1 with
        | (inl e, s2) => (inl e, s2)
        | (inr _, s2) => report_y_status (Py.ne next y) (Some y) s2
        end
    end.
Proof.
  unfold cmd_TESTY, resolved_y, candidate.
  destruct (get_kinematics_pos_run s) as (k & c & th & E).
  unfold bind at 1. rewrite E. open_state s. run.
  exists c, th. split; [reflexivity|].
  destruct (store_position pp (kin_1 k)) as [i pp'].
  cbn [fst snd]. run.
  destruct (next_y_pos pp' i (kin_1 k) gcmd) as [e|next]; [reflexivity|].
  destruct (move_y next _) as [[e|[]] s2]; reflexivity.
Qed.

(** *** The session guard *)

Lemma verify_no_manual_probe_run (p : printer T) :
  verify_no_manual_probe p =
  match gcode_handlers p !! "ACCEPT" with
  | Some _ => (inl (CommandError MsgAlreadyInProbe), p)
  | None => (inr tt, p)
  end.
Proof.
  destruct p as [hd th st tr]. unfold verify_no_manual_probe. run.
  destruct (hd !! "ACCEPT") eqn:E; [reflexivity|].
  rewrite delete_insert_id by exact E. reflexivity.
Qed.

Lemma register_command_free (cmd : string) (f : handler) (p : printer T) :
  gcode_handlers p !! cmd = None ->
  register_command cmd (Some f) p = (inr tt, set_handlers (insert cmd f) p).
Proof. intros E. unfold register_command. rewrite E. reflexivity. Qed.

Lemma init_conflict (gcmd : GCodeCommand) (cb : callback) (p : printer T) :
  is_Some (gcode_handlers p !! "ACCEPT") -> speed_param_ok gcmd ->
  BeltProbeHelper_init gcmd cb p = (inl (CommandError MsgAlreadyInProbe), p).
Proof.
  intros [f E] S. unfold BeltProbeHelper_init.
  unfold bind at 1. unfold of_result.
  unfold speed_param_ok in S.
  destruct (get_float_SPEED gcmd 5) as [e|spd]; [contradiction|].
  unfold bind at 1. rewrite verify_no_manual_probe_run, E. reflexivity.
Qed.

(** The [SPEED] parameter is read first: an error of the parameter is
    raised before the guard is looked at. *)
Lemma init_unreadable (gcmd : GCodeCommand) (cb : callback) (p : printer T)
    (e : exn) :
  get_float_SPEED gcmd 5 = inl e ->
  BeltProbeHelper_init gcmd cb p = (inl e, p).
Proof.
  intros E. unfold BeltProbeHelper_init.
  unfold bind at 1. unfold of_result. rewrite E. reflexivity.
Qed.

Lemma init_free (gcmd : GCodeCommand) (cb : callback) (p : printer T) :
  no_session (gcode_handlers p) -> speed_param_ok gcmd ->
  exists spd,
    get_float_SPEED gcmd 5 = inr spd /\
    BeltProbeHelper_init gcmd cb p =
    (inr (fst (started cb spd p)), snd (started cb spd p)).
Proof.
  intros (E1 & E2 & E3 & E4) S.
  assert (exists spd, get_float_SPEED gcmd 5 = inr spd) as [spd Es].
  { unfold speed_param_ok in S.
    destruct (get_float_SPEED gcmd 5) as [e|spd]; [contradiction|eauto]. }
  exists spd. split; [exact Es|].
  unfold BeltProbeHelper_init.
  unfold bind at 1. unfold of_result. rewrite Es.
  unfold bind at 1. rewrite verify_no_manual_probe_run, E1.
  unfold bind at 1. rewrite register_command_free by exact E1.
  unfold bind at 1. rewrite register_command_free
    by (cbn; rewrite lookup_insert_ne by done; exact E2).
  unfold bind at 1. rewrite register_command_free
    by (cbn; rewrite !lookup_insert_ne by done; exact E3).
  unfold bind at 1. rewrite register_command_free
    by (cbn; rewrite !lookup_insert_ne by done; exact E4).
  destruct p as [hd th st tr]. unfold report_y_status, get_kinematics_pos.
  run. cbn [andb]. run.
  change (recent_positions [] ?y) with (@None Q, @None Q).
  run. unfold started. cbn [fst snd]. rewrite <- app_assoc. reflexivity.
Qed.

(** A constructor that returns has found the names of a session free,
    and has made the session [started]. *)
Lemma init_ok (gcmd : GCodeCommand) (cb : callback) (p p' : printer T)
    (h : BeltProbeHelper) :
  BeltProbeHelper_init gcmd cb p = (inr h, p') ->
  gcode_handlers p !! "ACCEPT" = None /\
  exists spd,
    get_float_SPEED gcmd 5 = inr spd /\
    (h, p') = started cb spd p.
Proof.
  unfold BeltProbeHelper_init.
  unfold bind at 1. unfold of_result.
  destruct (get_float_SPEED gcmd 5) as [e|spd]; [discriminate|].
  unfold bind at 1. rewrite verify_no_manual_probe_run.
  destruct (gcode_handlers p !! "ACCEPT") eqn:E1; [discriminate|].
  unfold bind at 1. rewrite register_command_free by exact E1.
  unfold bind at 1. unfold register_command at 1.
  destruct (_ !! "NEXT"); [discriminate|].
  unfold bind at 1. unfold register_command at 1.
  destruct (_ !! "ABORT"); [discriminate|].
  unfold bind at 1. unfold register_command at 1.
  destruct (_ !! "TESTY"); [discriminate|].
  destruct p as [hd th st tr]. unfold report_y_status, get_kinematics_pos.
  run. cbn [andb]. run. change (recent_positions [] ?y) with (@None Q, @None Q).
  run. intros [= <- <-]. split; [reflexivity|]. exists spd.
  split; [reflexivity|]. unfold started. cbn [fst snd].
  rewrite <- app_assoc. reflexivity.
Qed.

(** *** What [cmd_TESTY] leaves alone *)

(** The history after a [TESTY], whatever its outcome: the resolved
    value has been stored. *)
Lemma cmd_TESTY_history (gcmd : GCodeCommand) (s : state T) :
  past_positions (self (snd (cmd_TESTY gcmd s))) =
  snd (store_position (past_positions (self s)) (resolved_y s)).
Proof.
  destruct (cmd_TESTY_run gcmd s) as (c & th & K & E). cbv zeta in E.
  rewrite E. clear E.
  destruct (candidate _ _ _) as [e|next]; [reflexivity|].
  destruct (move_y next _) as [[e|[]] s2] eqn:M.
  - apply move_y_error in M. destruct M as (_ & th' & n & ->).
    reflexivity.
  - apply move_y_ok in M. destruct M as (th' & ->).
    match goal with |- context [report_y_status ?w ?p ?x] =>
      destruct (report_y_status_run w p x) as (c' & th'' & R) end.
    cbv zeta in R. rewrite R. reflexivity.
Qed.

(** A [TESTY] that returns has moved and reported, and nothing else. *)
Lemma cmd_TESTY_ok (gcmd : GCodeCommand) (s s' : state T) :
  cmd_TESTY gcmd s = (inr tt, s') ->
  exists next y',
    let cur := get_position (toolhead (world (snd (get_kinematics_pos s)))) in
    candidate (past_positions (self s)) (resolved_y s) gcmd = inr next /\
    gcode_handlers (world s') = gcode_handlers (world s) /\
    manual_probe_status (world s') =
    Status true (Some y')
      (y_position_lower (manual_probe_status (world s')))
      (y_position_upper (manual_probe_status (world s'))) /\
    trace (world s') =
    trace (world s) ++ lift_and_return cur next (speed (self s)) ++
    (if Py.ne next (resolved_y s) && Py.eq y' (resolved_y s)
     then [RespondInfo MsgNoChangeWarning] else []) ++
    [RespondInfo
       (MsgYPosition
          (y_position_lower (manual_probe_status (world s'))) y'
          (y_position_upper (manual_probe_status (world s'))))].
Proof.
  destruct (cmd_TESTY_run gcmd s) as (c & th & K & E). cbv zeta in E.
  rewrite E. clear E.
  destruct (candidate _ _ _) as [e|next]; [discriminate|].
  destruct (move_y next _) as [[e|[]] s2] eqn:M; [discriminate|].
  apply move_y_ok in M. destruct M as (th' & ->).
  match goal with |- context [report_y_status ?w ?p ?x] =>
    destruct (report_y_status_run w p x) as (c' & th'' & R) end.
  cbv zeta in R. rewrite R. clear R. intros [= <-].
  rewrite K. clear K.
  open_state s. eexists next, _. split; [reflexivity|].
  run. rewrite <- !app_assoc. repeat split; reflexivity.
Qed.

(** A [TESTY] that raises for anything but a failed move has not
    touched the command table. *)
Lemma cmd_TESTY_error (gcmd : GCodeCommand) (s s' : state T) (e : exn) :
  cmd_TESTY gcmd s = (inl e, s') ->
  e <> CommandError MsgMoveFailed ->
  gcode_handlers (world s') = gcode_handlers (world s).
Proof.
  destruct (cmd_TESTY_run gcmd s) as (c & th & K & E). cbv zeta in E.
  rewrite E. clear E.
  destruct (candidate _ _ _) as [e'|next].
  - intros [= <- <-] _. open_state s. reflexivity.
  - destruct (move_y next _) as [[e'|[]] s2] eqn:M.
    + apply move_y_error in M. destruct M as (-> & _).
      intros [= <- <-] N. contradiction.
    + apply move_y_ok in M. destruct M as (th' & ->).
      match goal with |- context [report_y_status ?w ?p ?x] =>
        destruct (report_y_status_run w p x) as (c' & th'' & R) end.
      cbv zeta in R. rewrite R. discriminate.
Qed.

(** *** The command table *)

Lemma released_no_session (m : gmap string handler) : no_session (released m).
Proof.
  unfold no_session, released.
  repeat split;
    repeat (rewrite lookup_delete_eq || rewrite lookup_delete_ne by done);
    reflexivity.
Qed.

Lemma released_id (m : gmap string handler) : no_session m -> released m = m.
Proof.
  intros (E1 & E2 & E3 & E4). unfold released.
  rewrite (delete_id m "ACCEPT") by exact E1.
  rewrite (delete_id m "NEXT") by exact E2.
  rewrite (delete_id m "ABORT") by exact E3.
  apply delete_id. exact E4.
Qed.

Lemma session_handlers_accept (m : gmap string handler) :
  session_handlers m !! "ACCEPT" = Some H_cmd_ACCEPT.
Proof.
  unfold session_handlers. rewrite !lookup_insert_ne by done.
  apply lookup_insert_eq.
Qed.

(** An active session holds the guard: [ACCEPT] is registered. *)
Lemma active_holds_guard (s : state T) :
  active s -> gcode_handlers (world s) !! "ACCEPT" = Some H_cmd_ACCEPT.
Proof.
  induction 1 as [gcmd cb p h p' I | gcmd s s' A IH R
                 | gcmd s e s' A IH R N | s th A IH].
  - apply init_ok in I. destruct I as (_ & spd & _ & [= -> ->]).
    apply session_handlers_accept.
  - apply cmd_TESTY_ok in R. destruct R as (next & y' & _ & -> & _).
    exact IH.
  - rewrite (cmd_TESTY_error gcmd s s' e R N). exact IH.
  - exact IH.
Qed.

(** ** The claims on the session *)

(** The invariant of the history: strictly ascending in every state of
    a session. *)
Lemma session_ascending (s : state T) :
  session s -> ascending (past_positions (self s)).
Proof.
  induction 1 as [gcmd cb p h p' I | gcmd s r s' S IH R | s w S IH].
  - apply init_ok in I. destruct I as (_ & spd & _ & [= -> ->]).
    intros i j Hij. cbn in Hij. lia.
  - pose proof (cmd_TESTY_history gcmd s) as E. rewrite R in E.
    cbn [snd] in E. rewrite E.
    apply (store_position_spec _ (resolved_y s) IH).
  - exact IH.
Qed.

(** C3.  The history of a session is sorted in ascending order and holds
    no value twice, after every [TESTY] of every sequence of them,
    whatever each one's outcome and whatever happens to the printer in
    between. *)
Theorem past_positions_sorted_distinct (s : state T) :
  session s -> sorted_distinct (past_positions (self s)).
Proof.
  intros S. apply sorted_distinct_ascending, session_ascending, S.
Qed.

(** C1, as the code has it.  In every state of a session, with [y] the
    value that [TESTY] resolves: for [++] the candidate is the minimum
    of [y] plus [BISECT_MAX] and the bound above, which is the nearest
    stored position strictly above [y] or, without one, the sentinel
    [9999999999999.9]; the sentinel does not bind as long as [y] plus
    [BISECT_MAX] does not exceed it.  For [--] the same holds below,
    with the maximum and the sentinel [-9999999999999.9].  For an
    offset given as a number the candidate is [y] plus the offset,
    whatever the history. *)
Theorem coarse_step_candidate (s : state T) (gcmd : GCodeCommand) :
  session s ->
  let pp := past_positions (self s) in
  let y := resolved_y s in
  (get_Y gcmd = inr "++"%string ->
     exists c, candidate pp y gcmd = inr c /\
       c == Qmin (y + BISECT_MAX) (upper_bound pp y) /\
       (nearest_above pp y = None -> y + BISECT_MAX <= SENTINEL_HIGH ->
        c == y + BISECT_MAX)) /\
  (get_Y gcmd = inr "--"%string ->
     exists c, candidate pp y gcmd = inr c /\
       c == Qmax (y - BISECT_MAX) (lower_bound pp y) /\
       (nearest_below pp y = None -> SENTINEL_LOW <= y - BISECT_MAX ->
        c == y - BISECT_MAX)) /\
  (forall raw d, get_Y gcmd = inr raw -> step_token raw = false ->
     get_float_Y gcmd = inr d -> candidate pp y gcmd = inr (y + d)).
Proof.
  intros S pp y. apply session_ascending in S. fold pp in S. repeat split.
  - intros E. destruct (candidate_coarse_up pp y gcmd S E) as (c & Ec & Hc).
    exists c. repeat split; [exact Ec|exact Hc|].
    intros N B. rewrite Hc. unfold upper_bound. rewrite N.
    apply Q.min_l. exact B.
  - intros E.
    destruct (candidate_coarse_down pp y gcmd S E) as (c & Ec & Hc).
    exists c. repeat split; [exact Ec|exact Hc|].
    intros N B. rewrite Hc. unfold lower_bound. rewrite N.
    apply Q.max_l. exact B.
  - intros raw d E N F. apply (next_y_pos_offset _ _ _ _ raw d E N F).
Qed.

(** C2, as the code has it.  In every state of a session, with [y] the
    value that [TESTY] resolves: for [+] the candidate is the smaller
    of the midpoint between [y] and the bound above, and [y] plus
    [BISECT_MAX]; for [-] it is the larger of the midpoint between [y]
    and the bound below, and [y] minus [BISECT_MAX].  The fine step is
    cut at [BISECT_MAX], not at the bound. *)
Theorem fine_step_candidate (s : state T) (gcmd : GCodeCommand) :
  session s ->
  let pp := past_positions (self s) in
  let y := resolved_y s in
  (get_Y gcmd = inr "+"%string ->
     exists c, candidate pp y gcmd = inr c /\
       c == Qmin ((upper_bound pp y + y) / 2) (y + BISECT_MAX)) /\
  (get_Y gcmd = inr "-"%string ->
     exists c, candidate pp y gcmd = inr c /\
       c == Qmax ((lower_bound pp y + y) / 2) (y - BISECT_MAX)).
Proof.
  intros S pp y. apply session_ascending in S. fold pp in S.
  split; intros E.
  - apply (candidate_fine_up pp y gcmd S E).
  - apply (candidate_fine_down pp y gcmd S E).
Qed.

(** C6, as the code has it.  The constructor reads the [SPEED]
    parameter of the start command before it looks at the guard.
    While a session is active, the constructor of a second one raises
    and changes nothing: the printer, its command table included, is
    as before, and the helper of the first session is out of its
    reach.  The error is "Already in a Belt probe" when [SPEED] can be
    read, and the error of the parameter when it cannot.  After a
    finalize, of any state and with either outcome, the constructor
    returns a session if and only if [SPEED] can be read; otherwise it
    raises the error of the parameter and changes nothing. *)
Theorem session_guard (s : state T) (gcmd : GCodeCommand) (cb : callback) :
  (active s ->
   exists e p',
     BeltProbeHelper_init gcmd cb (world s) = (inl e, p') /\
     State (self s) p' = s /\
     (speed_param_ok gcmd -> e = CommandError MsgAlreadyInProbe) /\
     (forall e', get_float_SPEED gcmd 5 = inl e' -> e = e')) /\
  (forall success,
     let p := world (snd (finalize success s)) in
     ((exists h p', BeltProbeHelper_init gcmd cb p = (inr h, p')) <->
      speed_param_ok gcmd) /\
     (forall e',
        get_float_SPEED gcmd 5 = inl e' ->
        BeltProbeHelper_init gcmd cb p = (inl e', p))).
Proof.
  split.
  - intros A. unfold speed_param_ok.
    destruct (get_float_SPEED gcmd 5) as [e|spd] eqn:G.
    + exists e, (world s). rewrite (init_unreadable gcmd cb (world s) e G).
      split; [reflexivity|]. split; [destruct s; reflexivity|].
      split; [contradiction|]. intros e' [= <-]. reflexivity.
    + exists (CommandError MsgAlreadyInProbe), (world s).
      split; [|split; [destruct s; reflexivity|]].
      * apply init_conflict.
        -- rewrite (active_holds_guard s A). eauto.
        -- unfold speed_param_ok. rewrite G. exact I.
      * split; [reflexivity|]. intros e' C. discriminate C.
  - intros success. cbv zeta.
    destruct (finalize_run success s) as (k & c & th & E & _).
    rewrite E. cbn [snd world]. split; [split|].
    + intros (h & p' & J). apply init_ok in J.
      destruct J as (_ & spd & G & _).
      unfold speed_param_ok. rewrite G. exact I.
    + intros S.
      destruct (init_free gcmd cb
                  (Printer (released (gcode_handlers (world s))) th
                     (Status false None None None)
                     (trace (world s) ++
                      [FinalizeCallback (finalize_callback (self s)) k])))
        as (spd & _ & J); [apply released_no_session|exact S|].
      rewrite J. eauto.
    + intros e' G. apply init_unreadable. exact G.
Qed.

(** C9.  A session that the constructor returns has an empty history;
    the status it has published is active, with the resolved value and
    no neighbour on either side, and the last line shown to the operator
    is that position between two placeholders. *)
Theorem initial_status (gcmd : GCodeCommand) (cb : callback)
    (p p' : printer T) (h : BeltProbeHelper) :
  BeltProbeHelper_init gcmd cb p = (inr h, p') ->
  past_positions h = [] /\
  exists y,
    y = kin_1 (calc_position (flush_step_generation (toolhead p))) /\
    manual_probe_status p' = Status true (Some y) None None /\
    last (trace p') = Some (RespondInfo (MsgYPosition None y None)).
Proof.
  intros I. apply init_ok in I. destruct I as (_ & spd & _ & [= -> ->]).
  split; [reflexivity|]. eexists. split; [reflexivity|].
  split; [reflexivity|]. cbn [trace]. rewrite last_app. reflexivity.
Qed.

(** After a finalize no command of the session can be dispatched. *)
Lemma dispatch_unknown (cmd : string) (gcmd : GCodeCommand) (s : state T) :
  gcode_handlers (world s) !! cmd = None ->
  dispatch cmd gcmd s = (inl (CommandError (MsgUnknownCommand cmd)), s).
Proof. intros E. unfold dispatch. rewrite E. reflexivity. Qed.

(** C5, as the code has it.  Every call of [finalize] calls the
    completion callback once, the second call of two like the first:
    there is no guard against a second call in the helper.  What keeps a
    terminal command from reaching a finalized session is the command
    table: after the first call none of the four names of the session
    is registered, so that a command of the session is an unknown
    command that runs nothing, and the second call leaves the table as
    the first left it. *)
Theorem finalize_twice (s : state T) (first second : bool) :
  let cb := finalize_callback (self s) in
  let s1 := snd (finalize first s) in
  let s2 := snd (finalize second s1) in
  (exists k, trace (world s1) = trace (world s) ++ [FinalizeCallback cb k]) /\
  (exists k, trace (world s2) = trace (world s1) ++ [FinalizeCallback cb k]) /\
  (forall cmd gcmd, In cmd session_commands ->
     dispatch cmd gcmd s1 = (inl (CommandError (MsgUnknownCommand cmd)), s1)) /\
  gcode_handlers (world s2) = gcode_handlers (world s1).
Proof.
  intros cb s1 s2. subst cb s1 s2.
  destruct (finalize_run first s) as (k1 & c1 & th1 & E1 & _).
  rewrite E1. cbn [snd].
  match goal with |- context [finalize second ?x] =>
    destruct (finalize_run second x) as (k2 & c2 & th2 & E2 & _) end.
  rewrite E2. cbn [snd world trace gcode_handlers self].
  split; [eauto|]. split.
  - exists k2. destruct s as [[] ?]. reflexivity.
  - split.
    + intros cmd gcmd I. apply dispatch_unknown. cbn [world gcode_handlers].
      destruct (released_no_session (gcode_handlers (world s)))
        as (N1 & N2 & N3 & N4).
      cbn [In session_commands] in I.
      destruct I as [<-|[<-|[<-|[<-|[]]]]]; assumption.
    + apply released_id, released_no_session.
Qed.

(** The test of [cmd_ACCEPT] passes exactly on [accept_condition]. *)
Lemma accept_test (pos start : coord) :
  first_two_differ pos start || Py.ge (pos_2 pos) (pos_2 start) = false <->
  accept_condition pos start.
Proof.
  unfold first_two_differ, accept_condition, Py.ge.
  rewrite orb_false_iff, negb_false_iff, andb_true_iff, !eq_spec.
  rewrite <- lt_spec. unfold Py.lt. rewrite negb_true_iff. tauto.
Qed.

(** C4, as the code has it.  [ACCEPT] always finalizes.  It finalizes
    with success, handing a position to the callback, if and only if the
    toolhead position has the first two coordinates of the start
    position and a third coordinate strictly below that of the start
    position; the fourth coordinate is not looked at.  Otherwise it
    tells the operator that the probe failed and then does what [ABORT]
    does. *)
Theorem accept_outcome (gcmd : GCodeCommand) (s : state T) :
  let pos := get_position (toolhead (world s)) in
  let start := start_position (self s) in
  let cb := finalize_callback (self s) in
  exists s',
    cmd_ACCEPT gcmd s = (inr tt, s') /\
    gcode_handlers (world s') = released (gcode_handlers (world s)) /\
    (accept_condition pos start <->
     exists kin,
       trace (world s') = trace (world s) ++ [FinalizeCallback cb (Some kin)]) /\
    (~ accept_condition pos start ->
     trace (world s') =
     trace (world s) ++ [RespondInfo MsgProbeFailed; FinalizeCallback cb None] /\
     s' = snd (cmd_ABORT gcmd
                 (State (self s) (emit (RespondInfo MsgProbeFailed) (world s))))).
Proof.
  intros pos start cb. subst pos start cb.
  pose proof (accept_test (get_position (toolhead (world s)))
                (start_position (self s))) as A.
  unfold cmd_ACCEPT, cmd_ABORT. unfold bind at 1 2, gets.
  destruct (first_two_differ _ _ || Py.ge _ _).
  - assert (~ accept_condition (get_position (toolhead (world s)))
              (start_position (self s))) as N.
    { intros C. apply A in C. discriminate. }
    unfold bind at 1, on_world, respond_info, modify.
    match goal with |- context [finalize false ?x] =>
      destruct (finalize_run false x) as (k & c & th & E & F & _) end.
    destruct (F eq_refl) as (-> & -> & ->). rewrite E.
    eexists. split; [reflexivity|]. open_state s. run.
    split; [reflexivity|]. split.
    + split; [intros C; contradiction|].
      intros [kin E']. rewrite <- app_assoc in E'.
      apply app_inv_head in E'. discriminate.
    + intros _. rewrite <- app_assoc. split; reflexivity.
  - assert (accept_condition (get_position (toolhead (world s)))
              (start_position (self s))) as C by (apply A; reflexivity).
    destruct (finalize_run true s) as (k & c & th & E & _ & F).
    destruct (F eq_refl) as [kin ->]. rewrite E.
    eexists. split; [reflexivity|]. open_state s. run.
    split; [reflexivity|]. split; [|intros N; contradiction].
    split; [eauto|intros _; exact C].
Qed.



End Runs.

(** ** Rounding to the nearest double *)

Lemma pow2_pos k : 0 < Double.pow2 k.
Proof. apply Qpower_0_lt. reflexivity. Qed.

Lemma pow2_add a b : Double.pow2 (a + b) == Double.pow2 a * Double.pow2 b.
Proof. apply Qpower_plus. discriminate. Qed.

Lemma pow2_le a b : (a <= b)%Z -> Double.pow2 a <= Double.pow2 b.
Proof. intros L. apply Qpower_le_compat_l; [exact L|discriminate]. Qed.

Lemma pow2_lt_inv a b : Double.pow2 a < Double.pow2 b -> (a < b)%Z.
Proof. intros L. apply (Qpower_lt_compat_l_inv 2); [exact L|reflexivity]. Qed.

Lemma pow2_Z k : (0 <= k)%Z -> Double.pow2 k == inject_Z (2 ^ k).
Proof. intros L. symmetry. apply (Zpower_Qpower 2 k L). Qed.

Lemma pow2_cancel a : Double.pow2 a * Double.pow2 (- a) == 1.
Proof. rewrite <- pow2_add, Z.add_opp_diag_r. reflexivity. Qed.

(** [Double.mag q] is the binary order of magnitude of a positive [q]. *)
Lemma mag_spec q :
  0 < q ->
  Double.pow2 (Double.mag q - 1) <= q /\ q < Double.pow2 (Double.mag q).
Proof.
  intros P. destruct q as [n d]. unfold Double.mag. cbn [Qnum Qden].
  assert (0 < n)%Z as Pn.
  { unfold Qlt in P. cbn in P. lia. }
  set (a := Z.log2 n). set (b := Z.log2 (Z.pos d)).
  assert (0 <= a)%Z as Ha by apply Z.log2_nonneg.
  assert (0 <= b)%Z as Hb by apply Z.log2_nonneg.
  destruct (Z.log2_spec n Pn) as [A1 A2]. fold a in A1, A2.
  destruct (Z.log2_spec (Z.pos d) ltac:(lia)) as [B1 B2]. fold b in B1, B2.
  assert ((n # d) * inject_Z (Z.pos d) == inject_Z n) as E.
  { unfold Qeq, Qmult, inject_Z. cbn. lia. }
  assert (Double.pow2 a <= inject_Z n) as QA1.
  { rewrite (pow2_Z a Ha). rewrite <- Zle_Qle. exact A1. }
  assert (inject_Z n < Double.pow2 (a + 1)) as QA2.
  { rewrite (pow2_Z (a + 1)) by lia. rewrite <- Zlt_Qlt. exact A2. }
  assert (Double.pow2 b <= inject_Z (Z.pos d)) as QB1.
  { rewrite (pow2_Z b Hb). rewrite <- Zle_Qle. exact B1. }
  assert (inject_Z (Z.pos d) < Double.pow2 (b + 1)) as QB2.
  { rewrite (pow2_Z (b + 1)) by lia. rewrite <- Zlt_Qlt. exact B2. }
  assert (0 < inject_Z (Z.pos d)) as PD by reflexivity.
  destruct (Qle_bool (Double.pow2 (a - b)) (n # d)) eqn:T.
  - apply Qle_bool_iff in T. replace (a - b + 1 - 1)%Z with (a - b)%Z by lia.
    split; [exact T|].
    apply (Qmult_lt_r _ _ (inject_Z (Z.pos d)) PD). rewrite E.
    eapply Qlt_le_trans; [exact QA2|].
    replace (a + 1)%Z with ((a - b + 1) + b)%Z by lia.
    rewrite pow2_add. apply Qmult_le_l; [apply pow2_pos|exact QB1].
  - assert (n # d < Double.pow2 (a - b)) as T'.
    { apply Qnot_le_lt. intros C. apply Qle_bool_iff in C. congruence. }
    split; [|exact T'].
    apply (Qmult_le_r _ _ (inject_Z (Z.pos d)) PD). rewrite E.
    eapply Qle_trans; [|exact QA1].
    replace a with ((a - b - 1) + (b + 1))%Z at 2 by lia.
    rewrite pow2_add. apply Qmult_le_l; [apply pow2_pos|].
    apply Qlt_le_weak. exact QB2.
Qed.

Lemma mag_bound q k j :
  0 < q -> Double.pow2 (k - 1) <= q -> q < Double.pow2 j -> (k <= j)%Z.
Proof.
  intros P L U.
  assert (Double.pow2 (k - 1) < Double.pow2 j) as C
    by (eapply Qle_lt_trans; eassumption).
  apply pow2_lt_inv in C. lia.
Qed.

Lemma mag_unique q k :
  0 < q -> Double.pow2 (k - 1) <= q -> q < Double.pow2 k -> Double.mag q = k.
Proof.
  intros P L U. destruct (mag_spec q P) as [L' U'].
  pose proof (mag_bound q k (Double.mag q) P L U').
  pose proof (mag_bound q (Double.mag q) k P L' U). lia.
Qed.

Lemma mag_le p q : 0 < p -> p <= q -> (Double.mag p <= Double.mag q)%Z.
Proof.
  intros P L. assert (0 < q) as P' by lra.
  destruct (mag_spec p P) as [Lp _]. destruct (mag_spec q P') as [_ Uq].
  apply (mag_bound p (Double.mag p) (Double.mag q) P Lp). lra.
Qed.

(** Rounding to the nearest integer. *)
Lemma nearest_even_floor x :
  (Qfloor x <= Double.nearest_even x <= Qfloor x + 1)%Z.
Proof.
  unfold Double.nearest_even. destruct (Qcompare _ _); [|lia|lia].
  destruct (Z.even _); lia.
Qed.

Lemma nearest_even_Z z : Double.nearest_even (inject_Z z) = z.
Proof.
  unfold Double.nearest_even. rewrite Qfloor_Z.
  destruct (Qcompare_spec (inject_Z z - inject_Z z) (1 # 2)) as [C|C|C];
    [lra|reflexivity|lra].
Qed.

Lemma nearest_even_le x y :
  x <= y -> (Double.nearest_even x <= Double.nearest_even y)%Z.
Proof.
  intros L. pose proof (Qfloor_resp_le x y L) as F.
  pose proof (nearest_even_floor x) as Bx.
  pose proof (nearest_even_floor y) as By.
  destruct (Z.eq_dec (Qfloor x) (Qfloor y)) as [E|N]; [|lia].
  unfold Double.nearest_even in *. rewrite <- E in *.
  destruct (Qcompare_spec (x - inject_Z (Qfloor x)) (1 # 2)) as [C|C|C];
    destruct (Qcompare_spec (y - inject_Z (Qfloor x)) (1 # 2)) as [D|D|D];
    try lia; try lra.
Qed.

Lemma nearest_even_comp x y :
  x == y -> Double.nearest_even x = Double.nearest_even y.
Proof.
  intros E. apply Z.le_antisymm; apply nearest_even_le; lra.
Qed.

Lemma nearest_even_le_Z x z : x <= inject_Z z -> (Double.nearest_even x <= z)%Z.
Proof.
  intros L. rewrite <- (nearest_even_Z z). apply nearest_even_le, L.
Qed.

Lemma nearest_even_ge_Z x z : inject_Z z <= x -> (z <= Double.nearest_even x)%Z.
Proof.
  intros L. rewrite <- (nearest_even_Z z). apply nearest_even_le, L.
Qed.

(** Rounding of positive numbers. *)
Lemma round_pos_nonneg q : 0 <= q -> 0 <= Double.round_pos q.
Proof.
  intros P. unfold Double.round_pos.
  apply Qmult_le_0_compat; [|apply Qlt_le_weak, pow2_pos].
  change 0 with (inject_Z 0). rewrite <- Zle_Qle.
  apply nearest_even_ge_Z. change (inject_Z 0) with 0.
  apply Qmult_le_0_compat; [exact P|apply Qlt_le_weak, pow2_pos].
Qed.

Lemma round_pos_zero q : q == 0 -> Double.round_pos q == 0.
Proof.
  intros E. unfold Double.round_pos.
  rewrite (nearest_even_comp _ (inject_Z 0)).
  - rewrite nearest_even_Z. change (inject_Z 0) with 0. lra.
  - change (inject_Z 0) with 0.
    transitivity (0 * Double.pow2 (- Double.fexp (Double.mag q))); [|ring].
    apply Qmult_comp; [exact E|reflexivity].
Qed.

Lemma round_pos_below p k :
  0 < p -> p <= Double.pow2 k -> (Double.fexp (Double.mag p) <= k)%Z ->
  Double.round_pos p <= Double.pow2 k.
Proof.
  intros P L F. unfold Double.round_pos. revert F.
  generalize (Double.fexp (Double.mag p)). intros e F.
  assert (p * Double.pow2 (- e) <= inject_Z (2 ^ (k - e))) as S.
  { rewrite <- pow2_Z by lia. unfold Z.sub. rewrite (pow2_add k (- e)).
    apply Qmult_le_compat_r; [exact L|apply Qlt_le_weak, pow2_pos]. }
  apply nearest_even_le_Z in S. rewrite Zle_Qle in S.
  rewrite <- pow2_Z in S by lia.
  assert (Double.pow2 k == Double.pow2 (k - e) * Double.pow2 e) as K.
  { rewrite <- pow2_add. replace (k - e + e)%Z with k by lia. reflexivity. }
  rewrite K.
  apply Qmult_le_compat_r; [exact S|apply Qlt_le_weak, pow2_pos].
Qed.

Lemma round_pos_above q k :
  0 < q -> Double.pow2 k <= q -> (Double.fexp (Double.mag q) <= k)%Z ->
  Double.pow2 k <= Double.round_pos q.
Proof.
  intros P L F. unfold Double.round_pos. revert F.
  generalize (Double.fexp (Double.mag q)). intros e F.
  assert (inject_Z (2 ^ (k - e)) <= q * Double.pow2 (- e)) as S.
  { rewrite <- pow2_Z by lia. unfold Z.sub. rewrite (pow2_add k (- e)).
    apply Qmult_le_compat_r; [exact L|apply Qlt_le_weak, pow2_pos]. }
  apply nearest_even_ge_Z in S. rewrite Zle_Qle in S.
  rewrite <- pow2_Z in S by lia.
  assert (Double.pow2 k == Double.pow2 (k - e) * Double.pow2 e) as K.
  { rewrite <- pow2_add. replace (k - e + e)%Z with k by lia. reflexivity. }
  rewrite K.
  apply Qmult_le_compat_r; [exact S|apply Qlt_le_weak, pow2_pos].
Qed.

Lemma round_pos_le p q :
  0 < p -> p <= q -> Double.round_pos p <= Double.round_pos q.
Proof.
  intros P L. assert (0 < q) as P' by lra.
  pose proof (mag_le p q P L) as M.
  destruct (mag_spec p P) as [_ Up]. destruct (mag_spec q P') as [Lq _].
  destruct (Z.eq_dec (Double.fexp (Double.mag p))
              (Double.fexp (Double.mag q))) as [E|N].
  - unfold Double.round_pos. rewrite E.
    apply Qmult_le_compat_r; [|apply Qlt_le_weak, pow2_pos].
    rewrite <- Zle_Qle. apply nearest_even_le.
    apply Qmult_le_compat_r; [exact L|apply Qlt_le_weak, pow2_pos].
  - assert (Double.mag p <= Double.mag q - 1 /\
            Double.fexp (Double.mag p) <= Double.mag q - 1 /\
            Double.fexp (Double.mag q) <= Double.mag q - 1)%Z as (M1 & M2 & M3).
    { unfold Double.fexp in *. lia. }
    apply Qle_trans with (Double.pow2 (Double.mag q - 1)).
    + apply round_pos_below; [exact P| |exact M2].
      apply Qle_trans with (Double.pow2 (Double.mag p)); [lra|].
      apply pow2_le, M1.
    + apply round_pos_above; assumption.
Qed.

Lemma round_pos_le0 p q :
  0 <= p -> p <= q -> Double.round_pos p <= Double.round_pos q.
Proof.
  intros P L. destruct (Qlt_le_dec 0 p) as [C|C].
  - apply round_pos_le; assumption.
  - rewrite (round_pos_zero p) by lra. apply round_pos_nonneg. lra.
Qed.

Lemma round_pos_comp p q :
  0 <= p -> p == q -> Double.round_pos p == Double.round_pos q.
Proof.
  intros P E. apply Qle_antisym; apply round_pos_le0; lra.
Qed.

(** Rounding is monotone. *)
Lemma round_le p q : p <= q -> Double.round p <= Double.round q.
Proof.
  intros L. unfold Double.round.
  destruct (Qle_bool 0 p) eqn:Sp; destruct (Qle_bool 0 q) eqn:Sq.
  - apply Qle_bool_iff in Sp. apply round_pos_le0; assumption.
  - apply Qle_bool_iff in Sp.
    assert (~ 0 <= q) as C by (rewrite <- Qle_bool_iff; congruence). lra.
  - apply Qle_bool_iff in Sq.
    assert (~ 0 <= p) as C by (rewrite <- Qle_bool_iff; congruence).
    pose proof (round_pos_nonneg (- p) ltac:(lra)).
    pose proof (round_pos_nonneg q Sq). lra.
  - assert (~ 0 <= p) as Cp by (rewrite <- Qle_bool_iff; congruence).
    assert (~ 0 <= q) as Cq by (rewrite <- Qle_bool_iff; congruence).
    pose proof (round_pos_le0 (- q) (- p) ltac:(lra) ltac:(lra)). lra.
Qed.

#[export] Instance round_comp : Proper (Qeq ==> Qeq) Double.round.
Proof. intros p q E. apply Qle_antisym; apply round_le; lra. Qed.

Lemma round_0 : Double.round 0 == 0.
Proof. reflexivity. Qed.

(** Twice a double is a double. *)
Lemma round_pos_twice y :
  0 < y -> Double.round_pos y == y -> Double.round_pos (2 * y) == 2 * y.
Proof.
  intros P R. destruct (mag_spec y P) as [L U].
  assert (Double.mag (2 * y) = Double.mag y + 1)%Z as M.
  { apply mag_unique; [lra| |].
    - replace (Double.mag y + 1 - 1)%Z with (1 + (Double.mag y - 1))%Z by lia.
      rewrite pow2_add. change (Double.pow2 1) with 2. lra.
    - replace (Double.mag y + 1)%Z with (1 + Double.mag y)%Z by lia.
      rewrite pow2_add. change (Double.pow2 1) with 2. lra. }
  unfold Double.round_pos in *. rewrite M.
  set (e := Double.fexp (Double.mag y)) in *.
  set (e' := Double.fexp (Double.mag y + 1)).
  set (k := Double.nearest_even (y * Double.pow2 (- e))) in *.
  assert (0 <= e + 1 - e')%Z as J by (unfold e, e', Double.fexp; lia).
  assert (e <= e')%Z as J' by (unfold e, e', Double.fexp; lia).
  assert (2 * y * Double.pow2 (- e') == inject_Z (k * 2 ^ (e + 1 - e'))) as S.
  { rewrite inject_Z_mult, <- pow2_Z by exact J.
    rewrite <- R at 1.
    replace (e + 1 - e')%Z with (1 + e + - e')%Z by lia.
    rewrite !pow2_add. change (Double.pow2 1) with 2. ring. }
  rewrite (nearest_even_comp _ _ S), nearest_even_Z.
  rewrite inject_Z_mult, <- pow2_Z by exact J.
  rewrite <- R.
  replace (e + 1 - e')%Z with (1 + e + - e')%Z by lia.
  rewrite (pow2_add (1 + e) (- e')), (pow2_add 1 e).
  change (Double.pow2 1) with 2.
  transitivity
    (2 * (inject_Z k * Double.pow2 e) * (Double.pow2 e' * Double.pow2 (- e')));
    [ring|].
  rewrite (pow2_cancel e'). ring.
Qed.

Lemma round_twice y : Double.round y == y -> Double.round (2 * y) == 2 * y.
Proof.
  unfold Double.round. intros R.
  destruct (Qle_bool 0 y) eqn:S.
  - apply Qle_bool_iff in S.
    assert (Qle_bool 0 (2 * y) = true) as S' by (apply Qle_bool_iff; lra).
    rewrite S'. destruct (Qlt_le_dec 0 y) as [C|C].
    + apply round_pos_twice; assumption.
    + rewrite (round_pos_zero (2 * y)) by lra. lra.
  - assert (~ 0 <= y) as C by (rewrite <- Qle_bool_iff; congruence).
    assert (Qle_bool 0 (2 * y) = false) as S'.
    { destruct (Qle_bool 0 (2 * y)) eqn:T; [|reflexivity].
      apply Qle_bool_iff in T. lra. }
    rewrite S'.
    assert (Double.round_pos (- y) == - y) as R' by lra.
    rewrite (round_pos_comp (- (2 * y)) (2 * - y)) by lra.
    rewrite (round_pos_twice (- y)) by lra. ring.
Qed.

(** ** The bisection core in double arithmetic *)

Lemma double_step_positive : 0 <= Double.BISECT_MAX.
Proof.
  unfold Double.BISECT_MAX. rewrite <- round_0 at 1.
  apply round_le. discriminate.
Qed.

Lemma double_add_up y d :
  Double.round y == y -> 0 <= d -> y <= Double.add y d.
Proof.
  intros R P. unfold Double.add.
  apply Qle_trans with (Double.round y); [lra|apply round_le; lra].
Qed.

Lemma double_sub_down y d :
  Double.round y == y -> 0 <= d -> Double.sub y d <= y.
Proof.
  intros R P. unfold Double.sub.
  apply Qle_trans with (Double.round y); [apply round_le; lra|lra].
Qed.

(** The midpoint of a value and a bound lies between them. *)
Lemma double_midpoint_low a b :
  Double.round a == a -> a <= b ->
  a <= Double.div (Double.add b a) 2 /\ a <= Double.div (Double.add a b) 2.
Proof.
  intros R L. pose proof (round_twice a R) as T.
  assert (2 * a <= Double.round (b + a)) as S1.
  { rewrite <- T. apply round_le. lra. }
  assert (2 * a <= Double.round (a + b)) as S2.
  { rewrite <- T. apply round_le. lra. }
  unfold Double.div, Double.add.
  split; (apply Qle_trans with (Double.round a); [lra|]); apply round_le.
  - apply Qle_shift_div_l; lra.
  - apply Qle_shift_div_l; lra.
Qed.

Lemma double_midpoint_high a b :
  Double.round b == b -> a <= b ->
  Double.div (Double.add b a) 2 <= b /\ Double.div (Double.add a b) 2 <= b.
Proof.
  intros R L. pose proof (round_twice b R) as T.
  assert (Double.round (b + a) <= 2 * b) as S1.
  { rewrite <- T. apply round_le. lra. }
  assert (Double.round (a + b) <= 2 * b) as S2.
  { rewrite <- T. apply round_le. lra. }
  unfold Double.div, Double.add.
  split; (apply Qle_trans with (Double.round b); [|lra]); apply round_le.
  - apply Qle_shift_div_r; lra.
  - apply Qle_shift_div_r; lra.
Qed.

(** The bound that [next_y_pos] reads by index is the nearest stored
    position, or the sentinel. *)
Lemma double_upper_neighbor pp y : ascending pp ->
  let i := fst (store_position pp y) in
  let pp' := snd (store_position pp y) in
  (if (i <? length pp' - 1)%nat then nth (i + 1) pp' 0
   else Double.SENTINEL_HIGH) == Double.upper_bound pp y.
Proof.
  intros A i pp'. destruct (upper_neighbor pp y A) as [U1 U2].
  fold i pp' in U1, U2. unfold Double.upper_bound, upper_bound in *.
  destruct (nearest_above pp y) as [n|].
  - destruct ((i <? length pp' - 1)%nat); [exact U1|].
    destruct U2 as [U2 _]. discriminate (U2 eq_refl).
  - destruct U2 as [_ U2]. rewrite (U2 eq_refl). reflexivity.
Qed.

Lemma double_lower_neighbor pp y : ascending pp ->
  let i := fst (store_position pp y) in
  let pp' := snd (store_position pp y) in
  (if (0 <? i)%nat then nth (i - 1) pp' 0 else Double.SENTINEL_LOW)
  == Double.lower_bound pp y.
Proof.
  intros A i pp'. destruct (lower_neighbor pp y A) as [U1 U2].
  fold i pp' in U1, U2. unfold Double.lower_bound, lower_bound in *.
  destruct (nearest_below pp y) as [n|].
  - destruct ((0 <? i)%nat); [exact U1|].
    destruct U2 as [U2 _]. discriminate (U2 eq_refl).
  - destruct U2 as [_ U2]. rewrite (U2 eq_refl). reflexivity.
Qed.

#[export] Instance double_add_comp : Proper (Qeq ==> Qeq ==> Qeq) Double.add.
Proof.
  intros a a' Ea b b' Eb. unfold Double.add. rewrite Ea, Eb. reflexivity.
Qed.

#[export] Instance double_div_comp : Proper (Qeq ==> Qeq ==> Qeq) Double.div.
Proof.
  intros a a' Ea b b' Eb. unfold Double.div. rewrite Ea, Eb. reflexivity.
Qed.

(** The four step tokens in [Double.next_y_pos]. *)
Lemma double_next_fine_up pp i y gcmd : get_Y gcmd = inr "+"%string ->
  Double.next_y_pos pp i y gcmd =
  inr (Py.min
         (Double.div
            (Double.add
               (if (i <? length pp - 1)%nat then nth (i + 1) pp 0
                else Double.SENTINEL_HIGH) y) 2)
         (Double.add y Double.BISECT_MAX)).
Proof. intros E. unfold Double.next_y_pos. rewrite E. reflexivity. Qed.

Lemma double_next_coarse_up pp i y gcmd : get_Y gcmd = inr "++"%string ->
  Double.next_y_pos pp i y gcmd =
  inr (Py.min
         (if (i <? length pp - 1)%nat then nth (i + 1) pp 0
          else Double.SENTINEL_HIGH)
         (Double.add y Double.BISECT_MAX)).
Proof. intros E. unfold Double.next_y_pos. rewrite E. reflexivity. Qed.

Lemma double_next_fine_down pp i y gcmd : get_Y gcmd = inr "-"%string ->
  Double.next_y_pos pp i y gcmd =
  inr (Py.max
         (Double.div
            (Double.add
               (if (0 <? i)%nat then nth (i - 1) pp 0
                else Double.SENTINEL_LOW) y) 2)
         (Double.sub y Double.BISECT_MAX)).
Proof. intros E. unfold Double.next_y_pos. rewrite E. reflexivity. Qed.

Lemma double_next_coarse_down pp i y gcmd : get_Y gcmd = inr "--"%string ->
  Double.next_y_pos pp i y gcmd =
  inr (Py.max
         (if (0 <? i)%nat then nth (i - 1) pp 0 else Double.SENTINEL_LOW)
         (Double.sub y Double.BISECT_MAX)).
Proof. intros E. unfold Double.next_y_pos. rewrite E. reflexivity. Qed.

Section DoubleCandidate.

Variables (pp : list Q) (y : Q) (gcmd : GCodeCommand).
Hypothesis pp_ascending : ascending pp.

Lemma double_candidate_fine_up : get_Y gcmd = inr "+"%string ->
  exists c, Double.candidate pp y gcmd = inr c /\
    c == Qmin (Double.div (Double.add (Double.upper_bound pp y) y) 2)
           (Double.add y Double.BISECT_MAX).
Proof.
  intros E. pose proof (double_upper_neighbor pp y pp_ascending) as U.
  cbv zeta in U. eexists.
  split; [apply (double_next_fine_up _ _ _ _ E)|].
  rewrite min_Qmin, U. reflexivity.
Qed.

Lemma double_candidate_coarse_up : get_Y gcmd = inr "++"%string ->
  exists c, Double.candidate pp y gcmd = inr c /\
    c == Qmin (Double.upper_bound pp y) (Double.add y Double.BISECT_MAX).
Proof.
  intros E. pose proof (double_upper_neighbor pp y pp_ascending) as U.
  cbv zeta in U. eexists.
  split; [apply (double_next_coarse_up _ _ _ _ E)|].
  rewrite min_Qmin, U. reflexivity.
Qed.

Lemma double_candidate_fine_down : get_Y gcmd = inr "-"%string ->
  exists c, Double.candidate pp y gcmd = inr c /\
    c == Qmax (Double.div (Double.add (Double.lower_bound pp y) y) 2)
           (Double.sub y Double.BISECT_MAX).
Proof.
  intros E. pose proof (double_lower_neighbor pp y pp_ascending) as U.
  cbv zeta in U. eexists.
  split; [apply (double_next_fine_down _ _ _ _ E)|].
  rewrite max_Qmax, U. reflexivity.
Qed.

Lemma double_candidate_coarse_down : get_Y gcmd = inr "--"%string ->
  exists c, Double.candidate pp y gcmd = inr c /\
    c == Qmax (Double.lower_bound pp y) (Double.sub y Double.BISECT_MAX).
Proof.
  intros E. pose proof (double_lower_neighbor pp y pp_ascending) as U.
  cbv zeta in U. eexists.
  split; [apply (double_next_coarse_down _ _ _ _ E)|].
  rewrite max_Qmax, U. reflexivity.
Qed.

End DoubleCandidate.



Lemma in_range_check v : Double.in_rangeb v = true -> Double.in_range v.
Proof.
  unfold Double.in_rangeb, Double.in_range.
  rewrite andb_true_iff, negb_true_iff, Qeq_bool_iff.
  intros [E L]. split; [exact E|].
  apply Qnot_le_lt. intros C. apply Qle_bool_iff in C. congruence.
Qed.

Lemma all_in_range_check l :
  forallb Double.in_rangeb l = true -> Forall Double.in_range l.
Proof.
  induction l as [|v l IH]; cbn [forallb]; intros E; constructor.
  - apply andb_true_iff in E. apply in_range_check, E.
  - apply andb_true_iff in E. apply IH, E.
Qed.

(** The doubles of the three literals, and of [0.1 + 0.2]. *)
Lemma double_literals :
  Double.BISECT_MAX == 3602879701896397 # 18014398509481984 /\
  Double.SENTINEL_HIGH == 5119999999999949 # 512 /\
  Double.SENTINEL_LOW == - (5119999999999949 # 512) /\
  Double.add (Double.round (1 # 10)) Double.BISECT_MAX ==
  1351079888211149 # 4503599627370496.
Proof. repeat split; vm_compute; reflexivity. Qed.

(** ** The claims on the candidate *)


(** ** The claims at work *)

(** A session on the simulated toolhead is what the constructor
    returns, and its states are states of a session. *)
Lemma sim_session_start (c : coord) (swap : bool) :
  BeltProbeHelper_init gcmd_plain manual_probe_finalize
    (sim_printer c false swap) =
  (inr (self (sim_session c swap)), world (sim_session c swap)).
Proof.
  destruct (init_free gcmd_plain manual_probe_finalize
              (sim_printer c false swap)) as (spd & E & I).
  - repeat split; reflexivity.
  - exact Logic.I.
  - injection E as <-. exact I.
Defined.

Lemma sim_after_session (c : coord) (swap : bool) (gcmds : list GCodeCommand) :
  session (sim_after c swap gcmds).
Proof.
  unfold sim_after.
  assert (session (sim_session c swap)) as S.
  { apply (session_start gcmd_plain manual_probe_finalize
             (sim_printer c false swap)).
    apply sim_session_start. }
  revert S. generalize (sim_session c swap).
  induction gcmds as [|gcmd gcmds IH]; intros s S; cbn [fold_left].
  - exact S.
  - apply IH.
    apply (session_testy gcmd s (fst (cmd_TESTY gcmd s))); [exact S|].
    apply surjective_pairing.
Defined.

(** A session with no history at the value [10^13]: [++] yields the
    sentinel, not the value plus [BISECT_MAX].  The sentinel binds. *)
Lemma coarse_step_sentinel_binds :
  let s := sim_session (Coord 0 0 10000000000000 0) true in
  let pp := past_positions (self s) in
  let y := resolved_y s in
  nearest_above pp y = None /\
  exists c, candidate pp y (gcmd_Y "++" None) = inr c /\
            c == SENTINEL_HIGH /\ ~ c == y + BISECT_MAX.
Proof.
  split; [reflexivity|]. eexists. split; [vm_compute; reflexivity|].
  split; [reflexivity|]. vm_compute. discriminate.
Qed.

(** After [++] from [5] and [-] from [5.2] the history is [5; 5.2] and
    the value is [5.1]: [++] is cut at the neighbour [5.2]. *)
Lemma coarse_step_candidate_witness :
  let s := sim_after (Coord 0 0 5 0) true
             [gcmd_Y "++" None; gcmd_Y "-" None] in
  let pp := past_positions (self s) in
  let y := resolved_y s in
  exists c, candidate pp y (gcmd_Y "++" None) = inr c /\
            c == Qmin (y + BISECT_MAX) (upper_bound pp y) /\
            c == 26 # 5.
Proof.
  intros s pp y.
  destruct (coarse_step_candidate s (gcmd_Y "++" None)
              (sim_after_session _ _ _)) as (U & _ & _).
  destruct (U eq_refl) as (c & E & C & _). exists c.
  split; [exact E|]. split; [exact C|].
  rewrite C. vm_compute. reflexivity.
Defined.

(** A session with the history [1; 3] at the value [2]: [+] yields
    [2.2], which is neither the midpoint [2.5] nor the smaller of the
    midpoint and the bound [3]. *)
Lemma fine_step_cut_at_step :
  let s := sim_after (Coord 0 0 1 0) true
             [gcmd_Y "2" (Some 2); gcmd_Y "-1" (Some (-1))] in
  let pp := past_positions (self s) in
  let y := resolved_y s in
  pp = [1; 3] /\ y == 2 /\ upper_bound pp y == 3 /\
  exists c, candidate pp y (gcmd_Y "+" None) = inr c /\
            c == 11 # 5 /\
            ~ c == Qmin ((upper_bound pp y + y) / 2) (upper_bound pp y).
Proof.
  split; [vm_compute; reflexivity|]. split; [reflexivity|].
  split; [reflexivity|]. eexists. split; [vm_compute; reflexivity|].
  split; [reflexivity|]. vm_compute. discriminate.
Qed.

Lemma fine_step_candidate_witness :
  let s := sim_after (Coord 0 0 1 0) true
             [gcmd_Y "2" (Some 2); gcmd_Y "-1" (Some (-1))] in
  let pp := past_positions (self s) in
  let y := resolved_y s in
  exists c, candidate pp y (gcmd_Y "+" None) = inr c /\
            c == Qmin ((upper_bound pp y + y) / 2) (y + BISECT_MAX).
Proof.
  intros s pp y.
  destruct (fine_step_candidate s (gcmd_Y "+" None)
              (sim_after_session _ _ _)) as (U & _).
  exact (U eq_refl).
Defined.

(** With no history and the value [2 * 10^13], beyond the sentinel,
    [+] yields a candidate below the value. *)
Lemma step_beyond_sentinel_goes_back :
  let y := 20000000000000 in
  sorted_distinct [] /\ 0 < Double.BISECT_MAX /\ Double.in_range y /\
  exists c, Double.candidate [] y (gcmd_Y "+" None) = inr c /\ c < y.
Proof.
  split; [apply sorted_distinct_check; reflexivity|].
  split; [vm_compute; reflexivity|].
  split; [apply in_range_check; vm_compute; reflexivity|].
  eexists. split; [vm_compute; reflexivity|]. vm_compute. reflexivity.
Qed.



(** After [++] from [5] and [-] from [5.2] the history is [5; 5.2]. *)
Lemma past_positions_sorted_distinct_witness :
  let s := sim_after (Coord 0 0 5 0) true
             [gcmd_Y "++" None; gcmd_Y "-" None] in
  past_positions (self s) = [5; 26 # 5] /\
  sorted_distinct (past_positions (self s)).
Proof.
  intros s. split; [vm_compute; reflexivity|].
  apply past_positions_sorted_distinct. apply sim_after_session.
Defined.

(** The toolhead is at the first two coordinates of the start position
    and below its third, but its fourth coordinate has changed from [0]
    to [7]: [ACCEPT] finalizes with success all the same. *)
Lemma accept_ignores_fourth_coordinate :
  let s0 := sim_session (Coord 0 0 2 0) false in
  let s :=
    State (self s0)
      (set_toolhead (Sim (Coord 0 0 1 7) false false) (world s0)) in
  ~ accept_condition_all_coordinates
      (get_position (toolhead (world s))) (start_position (self s)) /\
  exists kin,
    trace (world (snd (cmd_ACCEPT gcmd_plain s))) =
    trace (world s) ++ [FinalizeCallback manual_probe_finalize (Some kin)].
Proof.
  split.
  - intros (_ & _ & E & _). vm_compute in E. discriminate.
  - eexists. vm_compute. reflexivity.
Qed.

(** Two calls of [finalize] on one session: the callback is called
    twice. *)
Lemma finalize_twice_calls_back_twice :
  let s := sim_session (Coord 0 0 5 0) true in
  let s1 := snd (finalize false s) in
  let s2 := snd (finalize false s1) in
  trace (world s2) =
  trace (world s) ++ [FinalizeCallback manual_probe_finalize None;
                      FinalizeCallback manual_probe_finalize None] /\
  trace (world s2) <> trace (world s1).
Proof.
  split; [vm_compute; reflexivity|]. vm_compute. discriminate.
Qed.

Lemma session_guard_witness :
  let s := sim_session (Coord 0 0 5 0) true in
  (exists p',
     BeltProbeHelper_init gcmd_plain y_endstop_finalize (world s) =
     (inl (CommandError MsgAlreadyInProbe), p') /\
     State (self s) p' = s) /\
  (exists h p',
     BeltProbeHelper_init gcmd_plain y_endstop_finalize
       (world (snd (finalize true s))) = (inr h, p')).
Proof.
  intros s.
  destruct (session_guard s gcmd_plain y_endstop_finalize) as [A B].
  split.
  - destruct A as (e & p' & J & K & C & _).
    + apply (active_start gcmd_plain manual_probe_finalize
               (sim_printer (Coord 0 0 5 0) false true)).
      apply sim_session_start.
    + exists p'. rewrite <- (C I). split; [exact J|exact K].
  - destruct (B true) as [[_ R] _]. apply R. exact I.
Defined.

(** A start command whose [SPEED] is not a number, while a session is
    active and after it was finalized: the error is that of the
    parameter, not the conflict, and no session is started. *)
Lemma unreadable_speed_beats_guard :
  let s := sim_session (Coord 0 0 5 0) true in
  let gcmd := gcmd_SPEED "fast" in
  active s /\
  BeltProbeHelper_init gcmd y_endstop_finalize (world s) =
  (inl (CommandError (MsgParameter "fast")), world s) /\
  CommandError (MsgParameter "fast") <> CommandError MsgAlreadyInProbe /\
  ~ (exists h p',
       BeltProbeHelper_init gcmd y_endstop_finalize
         (world (snd (finalize true s))) = (inr h, p')).
Proof.
  intros s gcmd. split.
  { apply (active_start gcmd_plain manual_probe_finalize
             (sim_printer (Coord 0 0 5 0) false true)).
    apply sim_session_start. }
  split; [reflexivity|]. split; [discriminate|].
  intros (h & p' & J). vm_compute in J. discriminate J.
Qed.




Lemma initial_status_witness :
  let s := sim_session (Coord 0 0 5 0) true in
  past_positions (self s) = [] /\
  exists y,
    y = 5 /\
    manual_probe_status (world s) = Status true (Some y) None None /\
    last (trace (world s)) = Some (RespondInfo (MsgYPosition None y None)).
Proof.
  intros s.
  exact (initial_status gcmd_plain manual_probe_finalize
           (sim_printer (Coord 0 0 5 0) false true) (world s) (self s)
           (sim_session_start (Coord 0 0 5 0) true)).
Defined.

(** * More of the helper *)

(** ** The neighbours of [report_y_status] *)

(** In a strictly ascending list two entries of one value are one
    entry. *)
Lemma ascending_In_eq l a b :
  ascending l -> In a l -> In b l -> a == b -> a = b.
Proof.
  intros A Ha Hb E.
  destruct (In_nth _ _ 0 Ha) as (i & Li & <-).
  destruct (In_nth _ _ 0 Hb) as (j & Lj & <-).
  apply sorted_distinct_ascending in A. destruct A as [_ D].
  rewrite (D i j Li Lj E). reflexivity.
Qed.

(** The nearest position above [y], by the index where the positions
    above [y] begin. *)
Lemma nearest_above_index pp y j : ascending pp ->
  (forall k, (k < j)%nat -> (k < length pp)%nat -> nth k pp 0 <= y) ->
  (forall k, (j <= k < length pp)%nat -> y < nth k pp 0) ->
  nearest_above pp y =
  if (j <? length pp)%nat then Some (nth j pp 0) else None.
Proof.
  intros A Lo Hi. pose proof (nearest_above_spec pp y) as S.
  destruct (nearest_above pp y) as [n|].
  - destruct S as (S1 & S2 & S3).
    destruct (In_nth _ _ 0 S1) as (k & Lk & Ek). subst n.
    assert (j <= k)%nat as Hjk.
    { destruct (Nat.le_gt_cases j k) as [C|C]; [exact C|].
      specialize (Lo k C Lk). lra. }
    destruct (Nat.ltb_spec j (length pp)) as [C|C]; [|lia].
    f_equal. apply (ascending_In_eq pp); auto.
    + apply nth_In. exact C.
    + pose proof (ascending_le pp j k A ltac:(lia)) as L1.
      assert (nth k pp 0 <= nth j pp 0) as L2.
      { apply S3; [apply nth_In; exact C|apply Hi; lia]. }
      lra.
  - destruct (Nat.ltb_spec j (length pp)) as [C|C]; [|reflexivity].
    exfalso. specialize (S (nth j pp 0) (nth_In _ _ C)).
    specialize (Hi j ltac:(lia)). lra.
Qed.

Lemma nearest_below_index pp y i : ascending pp ->
  (forall k, (k < i)%nat -> (k < length pp)%nat -> nth k pp 0 < y) ->
  (forall k, (i <= k < length pp)%nat -> y <= nth k pp 0) ->
  (i <= length pp)%nat ->
  nearest_below pp y =
  if (0 <? i)%nat then Some (nth (i - 1) pp 0) else None.
Proof.
  intros A Lo Hi Li. pose proof (nearest_below_spec pp y) as S.
  destruct (nearest_below pp y) as [n|].
  - destruct S as (S1 & S2 & S3).
    destruct (In_nth _ _ 0 S1) as (k & Lk & Ek). subst n.
    assert (k < i)%nat as Hki.
    { destruct (Nat.le_gt_cases i k) as [C|C]; [|exact C].
      specialize (Hi k ltac:(lia)). lra. }
    destruct (Nat.ltb_spec 0 i) as [C|C]; [|lia].
    f_equal. apply (ascending_In_eq pp); auto.
    + apply nth_In. lia.
    + pose proof (ascending_le pp k (i - 1) A ltac:(lia)) as L1.
      assert (nth (i - 1) pp 0 <= nth k pp 0) as L2.
      { apply S3; [apply nth_In; lia|apply Lo; lia]. }
      lra.
  - destruct (Nat.ltb_spec 0 i) as [C|C]; [|reflexivity].
    exfalso. assert (i - 1 < length pp)%nat as B by lia.
    specialize (S (nth (i - 1) pp 0) (nth_In _ _ B)).
    specialize (Lo (i - 1)%nat ltac:(lia) B). lra.
Qed.

(** On a strictly ascending history the two values that
    [report_y_status] looks up are the nearest stored positions
    strictly below and strictly above [y]. *)
Lemma recent_positions_nearest pp y : ascending pp ->
  recent_positions pp y = (nearest_below pp y, nearest_above pp y).
Proof.
  intros A. unfold recent_positions.
  destruct (bisect_left_spec pp y A) as (R1 & R2 & R3).
  set (i := Py.bisect_left pp y) in *.
  rewrite (nearest_below_index pp y i A) by auto.
  f_equal.
  - destruct (Nat.ltb_spec 0 i) as [C|C].
    + destruct (Z.leb_spec 0 (Z.of_nat i - 1)) as [D|D]; [|lia].
      do 2 f_equal. lia.
    + destruct (Z.leb_spec 0 (Z.of_nat i - 1)) as [D|D]; [lia|reflexivity].
  - destruct (Nat.ltb_spec i (length pp)) as [C|C]; cbn [andb].
    + destruct (Py.eq (nth i pp 0) y) eqn:E.
      * apply eq_spec in E.
        symmetry. apply nearest_above_index; [exact A| |].
        -- intros k Hk Lk. destruct (decide (k = i)) as [->|N]; [lra|].
           apply Qlt_le_weak, R2. lia.
        -- intros k Hk. rewrite <- E. apply A. lia.
      * assert (~ nth i pp 0 == y) as N.
        { intros F. apply eq_spec in F. congruence. }
        symmetry.
        rewrite (nearest_above_index pp y i A).
        -- destruct (Nat.ltb_spec i (length pp)); [reflexivity|lia].
        -- intros k Hk Lk. apply Qlt_le_weak, R2. exact Hk.
        -- intros k Hk. pose proof (R3 i ltac:(lia)) as L1.
           pose proof (ascending_le pp i k A ltac:(lia)) as L2.
           destruct (Qlt_le_dec y (nth i pp 0)) as [L|L]; [lra|].
           exfalso. apply N. lra.
    + symmetry. rewrite (nearest_above_index pp y i A).
      * destruct (Nat.ltb_spec i (length pp)); [lia|reflexivity].
      * intros k Hk Lk. apply Qlt_le_weak, R2. exact Hk.
      * intros k Hk. lia.
Qed.

(** ** What [store_position] does to the history *)

(** Whatever the list, nothing is lost, the value is in it afterwards,
    and at most one entry is added. *)
Lemma store_position_grows pp y :
  let pp' := snd (store_position pp y) in
  (forall v, In v pp -> In v pp') /\
  (exists v, In v pp' /\ v == y) /\
  (length pp <= length pp' <= S (length pp))%nat.
Proof.
  unfold store_position.
  set (i := Py.bisect_left pp y).
  destruct ((length pp <=? i)%nat || Py.ne (nth i pp 0) y) eqn:E; cbn [snd].
  - split; [|split].
    + intros v Hv. unfold Py.insert.
      rewrite <- (take_drop i pp) in Hv. apply in_app_or in Hv.
      apply in_or_app. cbn [In]. tauto.
    + exists y. split; [|reflexivity]. unfold Py.insert.
      apply in_or_app. right. left. reflexivity.
    + rewrite insert_length. lia.
  - apply orb_false_iff in E. rewrite Nat.leb_gt, ne_false in E.
    destruct E as [E1 E2]. split; [auto|]. split; [|lia].
    exists (nth i pp 0). split; [apply nth_In; exact E1|exact E2].
Qed.

(** A value that a strictly ascending history holds is not stored
    again. *)
Lemma store_position_present pp y : ascending pp ->
  (exists v, In v pp /\ v == y) -> snd (store_position pp y) = pp.
Proof.
  intros A (v & Hv & Ev). unfold store_position.
  destruct (bisect_left_spec pp y A) as (R1 & R2 & R3).
  set (i := Py.bisect_left pp y) in *.
  destruct (In_nth _ _ 0 Hv) as (k & Lk & Ek). subst v.
  assert (i <= k)%nat as Hik.
  { destruct (Nat.le_gt_cases i k) as [C|C]; [exact C|].
    specialize (R2 k C). lra. }
  assert (k = i) as ->.
  { destruct (decide (k = i)) as [C|C]; [exact C|]. exfalso.
    pose proof (A i k ltac:(lia)) as L1.
    pose proof (R3 i ltac:(lia)) as L2. lra. }
  destruct ((length pp <=? i)%nat || Py.ne (nth i pp 0) y) eqn:E;
    [|reflexivity].
  apply orb_true_iff in E. rewrite Nat.leb_le, ne_true in E.
  destruct E as [E|E]; [lia|contradiction].
Qed.

Section MoreRuns.

Context {T : Type} `{Toolhead T}.

Ltac open_state s :=
  let cb := fresh "cb" in let spd := fresh "spd" in
  let pp := fresh "pp" in let cache := fresh "cache" in
  let start := fresh "start" in let hd := fresh "hd" in
  let th := fresh "th" in let st := fresh "st" in let tr := fresh "tr" in
  destruct s as [[cb spd pp cache start] [hd th st tr]].

Ltac run :=
  cbv beta iota zeta delta
    [bind gets modify modify_self on_world ret raise when of_result
     try_except respond_info reset_status register_command
     toolhead_manual_move
     set_last_pos set_past_positions set_handlers set_toolhead set_status
     emit self world finalize_callback speed past_positions last_pos
     start_position gcode_handlers toolhead manual_probe_status trace].

(** What a [TESTY] that returns has published. *)
Lemma cmd_TESTY_published (gcmd : GCodeCommand) (s s' : state T) :
  cmd_TESTY gcmd s = (inr tt, s') ->
  exists y',
    let pp' := past_positions (self s') in
    manual_probe_status (world s') =
    Status true (Some y')
      (fst (recent_positions pp' y')) (snd (recent_positions pp' y')) /\
    last (trace (world s')) =
    Some (RespondInfo
            (MsgYPosition (fst (recent_positions pp' y')) y'
               (snd (recent_positions pp' y')))).
Proof.
  destruct (cmd_TESTY_run gcmd s) as (c & th & K & E). cbv zeta in E.
  rewrite E. clear E.
  destruct (candidate _ _ _) as [e|next]; [discriminate|].
  destruct (move_y next _) as [[e|[]] s2] eqn:M; [discriminate|].
  apply move_y_ok in M. destruct M as (th' & ->).
  match goal with |- context [report_y_status ?w ?p ?x] =>
    destruct (report_y_status_run w p x) as (c' & th'' & R) end.
  cbv zeta in R. rewrite R. clear R. intros [= <-].
  eexists. cbv zeta. cbn [world self manual_probe_status trace].
  split; [reflexivity|].
  rewrite !app_assoc. rewrite last_app. reflexivity.
Qed.

(** X1.  After every [TESTY] of a session that returns, the lower and
    upper neighbours in the published status, and in the line shown to
    the operator, are the nearest stored positions strictly below and
    strictly above the published current value, [None] where there is
    none; a stored position equal to the current value is neither. *)
Theorem reported_neighbours (gcmd : GCodeCommand) (s s' : state T) :
  session s ->
  cmd_TESTY gcmd s = (inr tt, s') ->
  exists y',
    let pp' := past_positions (self s') in
    manual_probe_status (world s') =
    Status true (Some y') (nearest_below pp' y') (nearest_above pp' y') /\
    last (trace (world s')) =
    Some (RespondInfo
            (MsgYPosition (nearest_below pp' y') y' (nearest_above pp' y'))).
Proof.
  intros S R.
  assert (ascending (past_positions (self s'))) as A.
  { apply session_ascending. apply (session_testy gcmd s (inr tt) s' S R). }
  apply cmd_TESTY_published in R. destruct R as (y' & St & Tr).
  cbv zeta in St, Tr. rewrite (recent_positions_nearest _ y' A) in St, Tr.
  exists y'. split; assumption.
Qed.

(** X2.  A [TESTY], whatever its outcome, loses no stored position,
    has the value it resolved at its start in the history afterwards,
    and adds at most one entry. *)
Theorem history_grows (gcmd : GCodeCommand) (s : state T) :
  let pp := past_positions (self s) in
  let pp' := past_positions (self (snd (cmd_TESTY gcmd s))) in
  (forall v, In v pp -> In v pp') /\
  (exists v, In v pp' /\ v == resolved_y s) /\
  (length pp <= length pp' <= S (length pp))%nat.
Proof.
  cbv zeta. rewrite cmd_TESTY_history. apply store_position_grows.
Qed.

(** X3.  In a session, a [TESTY] at a value that the history already
    holds leaves the history as it is. *)
Theorem history_unchanged_on_revisit (gcmd : GCodeCommand) (s : state T) :
  session s ->
  (exists v, In v (past_positions (self s)) /\ v == resolved_y s) ->
  past_positions (self (snd (cmd_TESTY gcmd s))) = past_positions (self s).
Proof.
  intros S P. rewrite cmd_TESTY_history.
  apply store_position_present; [apply session_ascending, S|exact P].
Qed.

(** X4.  On doubles of magnitude below [2^1023], with the history
    sorted and free of duplicates:
    when a stored position lies above the value [y], [n] being the
    nearest, the candidate of [+] and of [++] lies between [y] and
    [n], the two included; when a stored position lies below, the
    candidate of [-] and of [--] lies between the nearest one and
    [y], the two included.  Rounding can put the candidate on either
    end, and never outside. *)
Theorem step_inside_bracket (pp : list Q) (y n : Q) (gcmd : GCodeCommand) :
  sorted_distinct pp ->
  Forall Double.in_range pp ->
  Double.in_range y ->
  (nearest_above pp y = Some n ->
   get_Y gcmd = inr "+"%string \/ get_Y gcmd = inr "++"%string ->
   exists c, Double.candidate pp y gcmd = inr c /\ y <= c /\ c <= n) /\
  (nearest_below pp y = Some n ->
   get_Y gcmd = inr "-"%string \/ get_Y gcmd = inr "--"%string ->
   exists c, Double.candidate pp y gcmd = inr c /\ n <= c /\ c <= y).
Proof.
  intros S F [R _]. apply sorted_distinct_ascending in S.
  pose proof double_step_positive as P.
  split; intros N.
  - pose proof (nearest_above_spec pp y) as B. rewrite N in B.
    destruct B as (I & B & _).
    assert (Double.round n == n) as Rn.
    { apply (proj1 (List.Forall_forall _ _) F n I). }
    assert (Double.upper_bound pp y = n) as U
      by (unfold Double.upper_bound; rewrite N; reflexivity).
    intros [E|E].
    + destruct (double_candidate_fine_up pp y gcmd S E) as (c & Ec & Hc).
      exists c. split; [exact Ec|]. rewrite U in Hc. rewrite Hc. split.
      * apply Q.min_glb; [|apply double_add_up; assumption].
        apply (double_midpoint_low y n R). lra.
      * eapply Qle_trans; [apply Q.le_min_l|].
        apply (double_midpoint_high y n Rn). lra.
    + destruct (double_candidate_coarse_up pp y gcmd S E) as (c & Ec & Hc).
      exists c. split; [exact Ec|]. rewrite U in Hc. rewrite Hc. split.
      * apply Q.min_glb; [lra|apply double_add_up; assumption].
      * apply Q.le_min_l.
  - pose proof (nearest_below_spec pp y) as B. rewrite N in B.
    destruct B as (I & B & _).
    assert (Double.round n == n) as Rn.
    { apply (proj1 (List.Forall_forall _ _) F n I). }
    assert (Double.lower_bound pp y = n) as U
      by (unfold Double.lower_bound; rewrite N; reflexivity).
    intros [E|E].
    + destruct (double_candidate_fine_down pp y gcmd S E) as (c & Ec & Hc).
      exists c. split; [exact Ec|]. rewrite U in Hc. rewrite Hc. split.
      * eapply Qle_trans; [|apply Q.le_max_l].
        apply (double_midpoint_low n y Rn). lra.
      * apply Q.max_lub; [|apply double_sub_down; assumption].
        apply (double_midpoint_high n y R). lra.
    + destruct (double_candidate_coarse_down pp y gcmd S E) as (c & Ec & Hc).
      exists c. split; [exact Ec|]. rewrite U in Hc. rewrite Hc. split.
      * apply Q.le_max_l.
      * apply Q.max_lub; [lra|apply double_sub_down; assumption].
Qed.

(** ** [TESTY] that raises *)

(** The [Y] parameter cannot be read: it is missing, or it is no step
    token and no number. *)
Lemma next_y_pos_unreadable pp i y gcmd e :
  get_Y gcmd = inl e \/
  (exists raw, get_Y gcmd = inr raw /\ step_token raw = false /\
               get_float_Y gcmd = inl e) ->
  next_y_pos pp i y gcmd = inl e.
Proof.
  unfold next_y_pos. intros [E|(raw & E & N & F)]; rewrite E; [reflexivity|].
  unfold step_token in N. apply orb_false_iff in N. destruct N as [N N4].
  apply orb_false_iff in N. destruct N as [N N3].
  apply orb_false_iff in N. destruct N as [N1 N2].
  rewrite N1, N2, N3, N4, F. reflexivity.
Qed.

(** X5.  A [TESTY] whose [Y] parameter cannot be read raises the error
    of the parameter after it has stored the current value: the history
    is updated, while no move is commanded, nothing is said, and the
    commands and the status of the session stay as they are. *)
Theorem testy_unreadable_parameter (gcmd : GCodeCommand) (s : state T)
    (e : exn) :
  get_Y gcmd = inl e \/
  (exists raw, get_Y gcmd = inr raw /\ step_token raw = false /\
               get_float_Y gcmd = inl e) ->
  let s' := snd (cmd_TESTY gcmd s) in
  fst (cmd_TESTY gcmd s) = inl e /\
  past_positions (self s') =
  snd (store_position (past_positions (self s)) (resolved_y s)) /\
  trace (world s') = trace (world s) /\
  gcode_handlers (world s') = gcode_handlers (world s) /\
  manual_probe_status (world s') = manual_probe_status (world s).
Proof.
  intros P. cbv zeta. rewrite cmd_TESTY_history.
  destruct (cmd_TESTY_run gcmd s) as (c & th & K & E). cbv zeta in E.
  rewrite E. clear E. unfold candidate.
  rewrite (next_y_pos_unreadable _ _ _ gcmd e P).
  open_state s. repeat split; reflexivity.
Qed.


(** ** [ABORT] *)

(** X7.  [ABORT] always returns.  It calls the callback with no
    position, removes the four commands and clears the status; it does
    not touch the helper or the toolhead: no move is commanded and no
    position is resolved. *)
Theorem abort_outcome (gcmd : GCodeCommand) (s : state T) :
  cmd_ABORT gcmd s =
  (inr tt,
   State (self s)
     (Printer (released (gcode_handlers (world s))) (toolhead (world s))
        (Status false None None None)
        (trace (world s) ++
         [FinalizeCallback (finalize_callback (self s)) None]))).
Proof.
  unfold cmd_ABORT.
  destruct (finalize_run false s) as (k & c & th & E & F & _).
  destruct (F eq_refl) as (-> & -> & ->). rewrite E.
  open_state s. reflexivity.
Qed.

(** ** The cache of [get_kinematics_pos] *)

Lemma coord_eqb_refl (c : coord) : coord_eqb c c = true.
Proof.
  unfold coord_eqb, Py.eq.
  rewrite !(proj2 (Qeq_bool_iff _ _)); reflexivity.
Qed.

(** X8.  On a toolhead whose commanded position is not changed by
    flushing the step generation, resolving the position a second time
    returns what the first time returned and changes nothing: the
    second call is answered from the cache. *)
Theorem get_kinematics_pos_twice (s : state T) :
  flush_keeps_position T ->
  get_kinematics_pos (snd (get_kinematics_pos s)) = get_kinematics_pos s.
Proof.
  intros F. open_state s. unfold get_kinematics_pos. run.
  destruct cache as [[c k]|].
  - destruct (coord_eqb (get_position th) c) eqn:E; run; cbn [snd]; run.
    + rewrite E. reflexivity.
    + rewrite (F th). reflexivity.
  - run. cbn [snd]. run. rewrite (F th). reflexivity.
Qed.

(** ** What no command changes *)

Lemma cmd_TESTY_constants (gcmd : GCodeCommand) (s : state T) :
  constants (self (snd (cmd_TESTY gcmd s))) = constants (self s).
Proof.
  destruct (cmd_TESTY_run gcmd s) as (c & th & K & E). cbv zeta in E.
  rewrite E. clear E.
  destruct (candidate _ _ _) as [e|next]; [open_state s; reflexivity|].
  destruct (move_y next _) as [[e|[]] s2] eqn:M.
  - apply move_y_error in M. destruct M as (_ & th' & n & ->).
    open_state s. reflexivity.
  - apply move_y_ok in M. destruct M as (th' & ->).
    match goal with |- context [report_y_status ?w ?p ?x] =>
      destruct (report_y_status_run w p x) as (c' & th'' & R) end.
    cbv zeta in R. rewrite R. open_state s. reflexivity.
Qed.

Lemma finalize_constants (success : bool) (s : state T) :
  constants (self (snd (finalize success s))) = constants (self s).
Proof.
  destruct (finalize_run success s) as (k & c & th & E & _).
  rewrite E. open_state s. reflexivity.
Qed.

(** X9.  No command of a session, and no command line that is not one,
    changes the start position, the speed or the callback of the
    helper, whatever the outcome of the command. *)
Theorem session_constants (cmd : string) (gcmd : GCodeCommand)
    (s : state T) :
  let s' := snd (dispatch cmd gcmd s) in
  start_position (self s') = start_position (self s) /\
  speed (self s') = speed (self s) /\
  finalize_callback (self s') = finalize_callback (self s).
Proof.
  cbv zeta.
  assert (constants (self (snd (dispatch cmd gcmd s))) = constants (self s))
    as C.
  { unfold dispatch.
    destruct (gcode_handlers (world s) !! cmd) as [[| | |]|];
      try reflexivity.
    - unfold cmd_ACCEPT. unfold bind at 1 2, gets.
      destruct (first_two_differ _ _ || Py.ge _ _).
      + unfold bind at 1, on_world, respond_info, modify.
        match goal with |- context [finalize false ?x] =>
          rewrite (finalize_constants false x) end.
        reflexivity.
      + apply finalize_constants.
    - apply cmd_TESTY_constants. }
  unfold constants in C. injection C as C1 C2 C3. auto.
Qed.

(** ** The constructor *)

(** A constructor that returns has found the four names free and has
    read the speed. *)
Lemma init_needs_free (gcmd : GCodeCommand) (cb : callback)
    (p p' : printer T) (h : BeltProbeHelper) :
  BeltProbeHelper_init gcmd cb p = (inr h, p') ->
  speed_param_ok gcmd /\ no_session (gcode_handlers p).
Proof.
  unfold BeltProbeHelper_init, speed_param_ok, no_session.
  unfold bind at 1. unfold of_result.
  destruct (get_float_SPEED gcmd 5) as [e|spd]; [discriminate|].
  unfold bind at 1. rewrite verify_no_manual_probe_run.
  destruct (gcode_handlers p !! "ACCEPT") eqn:E1; [discriminate|].
  unfold bind at 1. rewrite register_command_free by exact E1.
  unfold bind at 1. unfold register_command at 1.
  destruct (_ !! "NEXT") eqn:E2; [discriminate|].
  unfold bind at 1. unfold register_command at 1.
  destruct (_ !! "ABORT") eqn:E3; [discriminate|].
  unfold bind at 1. unfold register_command at 1.
  destruct (_ !! "TESTY") eqn:E4; [discriminate|].
  intros _. destruct p as [hd th st tr].
  cbn [gcode_handlers set_handlers] in *.
  rewrite lookup_insert_ne in E2 by done.
  rewrite !lookup_insert_ne in E3 by done.
  rewrite !lookup_insert_ne in E4 by done. auto.
Qed.

(** X10.  The constructor returns a session exactly when the [SPEED]
    parameter can be read and none of [ACCEPT], [NEXT], [ABORT] and
    [TESTY] is registered. *)
Theorem constructor_returns_iff (gcmd : GCodeCommand) (cb : callback)
    (p : printer T) :
  (exists h p', BeltProbeHelper_init gcmd cb p = (inr h, p')) <->
  speed_param_ok gcmd /\ no_session (gcode_handlers p).
Proof.
  split.
  - intros (h & p' & I). apply (init_needs_free gcmd cb p p' h I).
  - intros [S N]. destruct (init_free gcmd cb p N S) as (spd & _ & I).
    rewrite I. eauto.
Qed.

(** X11.  The constructor registers its commands one after the other
    and takes none back.  With a [SPEED] that can be read, [ACCEPT]
    free and one of [NEXT], [ABORT] and [TESTY] taken, it raises the
    configuration error for the first of these three names, in this
    order, that is taken, and leaves [ACCEPT] registered: no session
    was returned, and every later constructor call with a [SPEED] that
    can be read raises "Already in a Belt probe".  With a [SPEED] that
    cannot be read it raises the error of the parameter and registers
    nothing. *)
Theorem constructor_leaves_guard (gcmd : GCodeCommand) (cb : callback)
    (p : printer T) :
  gcode_handlers p !! "ACCEPT" = None ->
  is_Some (gcode_handlers p !! "NEXT") \/
  is_Some (gcode_handlers p !! "ABORT") \/
  is_Some (gcode_handlers p !! "TESTY") ->
  (forall e,
     get_float_SPEED gcmd 5 = inl e ->
     BeltProbeHelper_init gcmd cb p = (inl e, p)) /\
  (speed_param_ok gcmd ->
   exists name p',
     BeltProbeHelper_init gcmd cb p =
     (inl (ConfigError (MsgAlreadyRegistered name)), p') /\
     (is_Some (gcode_handlers p !! "NEXT") -> name = "NEXT"%string) /\
     (gcode_handlers p !! "NEXT" = None ->
      is_Some (gcode_handlers p !! "ABORT") -> name = "ABORT"%string) /\
     (gcode_handlers p !! "NEXT" = None ->
      gcode_handlers p !! "ABORT" = None -> name = "TESTY"%string) /\
     gcode_handlers p' !! "ACCEPT" = Some H_cmd_ACCEPT /\
     forall gcmd' cb',
       speed_param_ok gcmd' ->
       BeltProbeHelper_init gcmd' cb' p' =
       (inl (CommandError MsgAlreadyInProbe), p')).
Proof.
  intros E1 Taken. split; [intros e G; apply init_unreadable, G|].
  intros S.
  assert (forall p' : printer T,
            gcode_handlers p' !! "ACCEPT" = Some H_cmd_ACCEPT ->
            forall gcmd' cb', speed_param_ok gcmd' ->
              BeltProbeHelper_init gcmd' cb' p' =
              (inl (CommandError MsgAlreadyInProbe), p')) as Later.
  { intros p' A gcmd' cb' S'.
    apply init_conflict; [rewrite A; eauto|exact S']. }
  assert (forall A B : Prop, A -> (A -> B) -> A /\ B) as K by tauto.
  unfold speed_param_ok in S. unfold BeltProbeHelper_init at 1.
  unfold bind at 1. unfold of_result.
  destruct (get_float_SPEED gcmd 5) as [e|spd]; [contradiction|].
  unfold bind at 1. rewrite verify_no_manual_probe_run, E1.
  unfold bind at 1. rewrite register_command_free by exact E1.
  destruct p as [hd th st tr]. cbn [gcode_handlers] in *.
  unfold bind at 1. unfold register_command at 1.
  cbn [set_handlers gcode_handlers toolhead manual_probe_status trace].
  rewrite lookup_insert_ne by done.
  destruct (hd !! "NEXT") as [f2|] eqn:E2.
  { eexists "NEXT"%string, _. split; [reflexivity|].
    split; [reflexivity|]. split; [discriminate|]. split; [discriminate|].
    apply K; [|apply Later].
    cbn [gcode_handlers set_handlers]. apply lookup_insert_eq. }
  unfold bind at 1. unfold register_command at 1.
  cbn [set_handlers gcode_handlers toolhead manual_probe_status trace].
  rewrite !lookup_insert_ne by done.
  destruct (hd !! "ABORT") as [f3|] eqn:E3.
  { eexists "ABORT"%string, _. split; [reflexivity|].
    split; [intros [? ?]; discriminate|]. split; [reflexivity|].
    split; [discriminate|].
    apply K; [|apply Later].
    cbn [gcode_handlers set_handlers]. rewrite lookup_insert_ne by done.
    apply lookup_insert_eq. }
  unfold bind at 1. unfold register_command at 1.
  cbn [set_handlers gcode_handlers toolhead manual_probe_status trace].
  rewrite !lookup_insert_ne by done.
  destruct (hd !! "TESTY") as [f4|] eqn:E4.
  { eexists "TESTY"%string, _. split; [reflexivity|].
    split; [intros [? ?]; discriminate|].
    split; [intros _ [? ?]; discriminate|]. split; [reflexivity|].
    apply K; [|apply Later].
    cbn [gcode_handlers set_handlers]. rewrite !lookup_insert_ne by done.
    apply lookup_insert_eq. }
  exfalso. destruct Taken as [[? ?]|[[? ?]|[? ?]]]; congruence.
Qed.

(** X12.  [verify_no_manual_probe] never changes the printer: it
    registers a placeholder under [ACCEPT] and removes it again.  It
    raises "Already in a Belt probe" exactly when [ACCEPT] is
    registered, and returns otherwise. *)
Theorem verify_leaves_printer (p : printer T) :
  snd (verify_no_manual_probe p) = p /\
  (fst (verify_no_manual_probe p) = inl (CommandError MsgAlreadyInProbe) <->
   is_Some (gcode_handlers p !! "ACCEPT")) /\
  (fst (verify_no_manual_probe p) = inr tt <->
   gcode_handlers p !! "ACCEPT" = None).
Proof.
  rewrite verify_no_manual_probe_run.
  destruct (gcode_handlers p !! "ACCEPT") as [f|]; cbn [fst snd].
  - split; [reflexivity|]. split; split; try discriminate; eauto.
  - split; [reflexivity|]. split; split; try discriminate; auto.
    intros [? ?]. discriminate.
Qed.

(** X18.  When [ACCEPT] succeeds, the position handed to the callback
    is the one that the helper resolves at that moment: its component
    1 is the resolved value of the probed axis. *)
Theorem accept_hands_resolved_position (gcmd : GCodeCommand)
    (s : state T) :
  accept_condition (get_position (toolhead (world s)))
    (start_position (self s)) ->
  exists kin,
    fst (get_kinematics_pos s) = inr kin /\
    kin_1 kin = resolved_y s /\
    trace (world (snd (cmd_ACCEPT gcmd s))) =
    trace (world s) ++
    [FinalizeCallback (finalize_callback (self s)) (Some kin)].
Proof.
  intros C. apply accept_test in C.
  unfold resolved_y, cmd_ACCEPT. unfold bind at 1 2, gets. rewrite C.
  open_state s. unfold finalize, get_kinematics_pos. run.
  destruct cache as [[c k]|].
  - destruct (coord_eqb _ _); run; eexists; repeat split; reflexivity.
  - run. eexists. repeat split; reflexivity.
Qed.

(** ** A whole session *)

(** A [TESTY] leaves the command table as it is, or, when a move
    fails, without the four names of the session. *)
Lemma cmd_TESTY_handlers (gcmd : GCodeCommand) (s : state T) :
  let m := gcode_handlers (world s) in
  let m' := gcode_handlers (world (snd (cmd_TESTY gcmd s))) in
  m' = m \/ m' = released m.
Proof.
  cbv zeta.
  destruct (cmd_TESTY_run gcmd s) as (c & th & K & E). cbv zeta in E.
  rewrite E. clear E.
  destruct (candidate _ _ _) as [e|next]; [left; open_state s; reflexivity|].
  destruct (move_y next _) as [[e|[]] s2] eqn:M.
  - apply move_y_error in M. destruct M as (_ & th' & n & ->).
    right. open_state s. reflexivity.
  - apply move_y_ok in M. destruct M as (th' & ->).
    match goal with |- context [report_y_status ?w ?p ?x] =>
      destruct (report_y_status_run w p x) as (c' & th'' & R) end.
    cbv zeta in R. rewrite R. left. open_state s. reflexivity.
Qed.

Lemma released_session_handlers (m : gmap string handler) :
  no_session m -> released (session_handlers m) = m.
Proof.
  intros (A & B & C & D). unfold released, session_handlers.
  apply map_eq. intros k.
  destruct (decide (k = "TESTY"%string)) as [->|?];
    [rewrite lookup_delete_eq; symmetry; exact D|].
  rewrite lookup_delete_ne by done.
  destruct (decide (k = "ABORT"%string)) as [->|?];
    [rewrite lookup_delete_eq; symmetry; exact C|].
  rewrite lookup_delete_ne by done.
  destruct (decide (k = "NEXT"%string)) as [->|?];
    [rewrite lookup_delete_eq; symmetry; exact B|].
  rewrite lookup_delete_ne by done.
  destruct (decide (k = "ACCEPT"%string)) as [->|?];
    [rewrite lookup_delete_eq; symmetry; exact A|].
  rewrite lookup_delete_ne by done.
  rewrite !lookup_insert_ne by done. reflexivity.
Qed.

(** X19.  A session gives back the command table it found.  Started
    on a printer, followed by any sequence of [TESTY] commands,
    whatever their outcomes, and ended by a finalize of either outcome,
    as [ACCEPT] and [ABORT] do it, it leaves the command table of the
    printer as it was before the constructor ran, and the status
    cleared. *)
Theorem session_restores_table (gcmd : GCodeCommand) (cb : callback)
    (p p' : printer T) (h : BeltProbeHelper) (gcmds : list GCodeCommand)
    (success : bool) :
  BeltProbeHelper_init gcmd cb p = (inr h, p') ->
  let s := fold_left (fun s g => snd (cmd_TESTY g s)) gcmds (State h p') in
  let s' := snd (finalize success s) in
  gcode_handlers (world s') = gcode_handlers p /\
  manual_probe_status (world s') = Status false None None None.
Proof.
  intros I. cbv zeta.
  pose proof (init_needs_free gcmd cb p p' h I) as [_ N].
  apply init_ok in I. destruct I as (_ & spd & _ & I).
  assert (gcode_handlers p' = session_handlers (gcode_handlers p)) as G.
  { unfold started in I. injection I as _ ->. reflexivity. }
  clear I. set (m := gcode_handlers p) in *.
  assert (forall s : state T,
            gcode_handlers (world s) = session_handlers m \/
            gcode_handlers (world s) = m ->
            let s' := fold_left (fun s g => snd (cmd_TESTY g s)) gcmds s in
            gcode_handlers (world s') = session_handlers m \/
            gcode_handlers (world s') = m) as Inv.
  { induction gcmds as [|g gcmds IH]; intros s J; [exact J|].
    cbn [fold_left]. apply IH.
    destruct (cmd_TESTY_handlers g s) as [-> | ->].
    - exact J.
    - right. destruct J as [-> | ->].
      + apply released_session_handlers. exact N.
      + apply released_id. exact N. }
  specialize (Inv (State h p') (or_introl G)). cbv zeta in Inv.
  set (s := fold_left _ gcmds (State h p')) in *.
  destruct (finalize_run success s) as (k & c & th & E & _).
  rewrite E. cbn [snd world gcode_handlers manual_probe_status].
  split; [|reflexivity].
  destruct Inv as [-> | ->].
  - apply released_session_handlers. exact N.
  - apply released_id. exact N.
Qed.

End MoreRuns.
(** * The [BeltProbe] object *)

Section BeltProbeRuns.

Context {T : Type} `{Toolhead T}.

Lemma belt_dispatch_helper_printer (self : BeltProbe) (cmd : string)
    (gcmd : GCodeCommand) (k : klippy T) :
  helper_printer (snd (belt_dispatch self cmd gcmd k)) = helper_printer k.
Proof.
  unfold belt_dispatch.
  destruct (belt_commands k !! cmd) as [[| |]|]; try reflexivity.
  unfold cmd_Y_OFFSET_APPLY_ENDSTOP.
  destruct (Py.eq _ _); [reflexivity|].
  destruct (endstop_minus _ _); reflexivity.
Qed.

(** X13.  The two commands that are meant to start a session call the
    name [ManualProbeHelper], which the module does not bind: each
    raises [NameError] and changes nothing.  So no sequence of
    [BeltProbe] commands starts a session: the printer of the helper,
    with its command table, is left as it was. *)
Theorem start_commands_never_start (self : BeltProbe)
    (cmds : list (string * GCodeCommand)) (gcmd : GCodeCommand)
    (k : klippy T) :
  cmd_MANUAL_PROBE self gcmd k = (inl (NameError "ManualProbeHelper"), k) /\
  cmd_Y_ENDSTOP_CALIBRATE self gcmd k =
  (inl (NameError "ManualProbeHelper"), k) /\
  helper_printer (belt_run self cmds k) = helper_printer k.
Proof.
  split; [reflexivity|]. split; [reflexivity|].
  unfold belt_run. revert k. induction cmds as [|c cmds IH]; intros k.
  - reflexivity.
  - cbn [fold_left]. rewrite IH. apply belt_dispatch_helper_printer.
Qed.

Lemma belt_register_inv (cmd : string) (f : belt_handler) (k k' : klippy T) :
  belt_register cmd f k = (inr tt, k') ->
  belt_commands k !! cmd = None /\
  k' = Klippy (<[cmd := f]> (belt_commands k)) (belt_responses k)
         (configfile k) (homing_origin_y k) (helper_printer k).
Proof.
  unfold belt_register. destruct (belt_commands k !! cmd); [discriminate|].
  intros [= <-]. auto.
Qed.

(** The constructor for the kinematics ["belt"]: what it leaves. *)
Lemma BeltProbe_init_belt (config : ConfigWrapper) (k k' : klippy T)
    (self : BeltProbe) :
  config_kinematics config = inr "belt"%string ->
  BeltProbe_init config k = (inr self, k') ->
  exists endstop,
    config_position_endstop config = inr endstop /\
    self =
    BeltProbeObject (Some endstop) (Some (Status false None None None)) /\
    belt_commands k' =
    <["Y_OFFSET_APPLY_ENDSTOP"%string := H_cmd_Y_OFFSET_APPLY_ENDSTOP]>
      (<["Y_ENDSTOP_CALIBRATE"%string := H_cmd_Y_ENDSTOP_CALIBRATE]>
         (<["BELT_PROBE"%string := H_cmd_MANUAL_PROBE]> (belt_commands k))) /\
    belt_responses k' = belt_responses k /\
    configfile k' = configfile k /\
    homing_origin_y k' = homing_origin_y k /\
    helper_printer k' = helper_printer k.
Proof.
  intros K. unfold BeltProbe_init. rewrite K.
  destruct (belt_register "BELT_PROBE" _ k) as [[e|[]] k1] eqn:R1;
    [discriminate|].
  apply belt_register_inv in R1. destruct R1 as [_ ->].
  cbn [negb String.eqb Ascii.eqb Bool.eqb andb].
  destruct (config_position_endstop config) as [e|endstop]; [discriminate|].
  destruct (belt_register "Y_ENDSTOP_CALIBRATE" _ _) as [[e|[]] k2] eqn:R2;
    [discriminate|].
  apply belt_register_inv in R2. destruct R2 as [_ ->].
  destruct (belt_register "Y_OFFSET_APPLY_ENDSTOP" _ _) as [[e|[]] k3] eqn:R3;
    [discriminate|].
  apply belt_register_inv in R3. destruct R3 as [_ ->].
  intros [= <- <-]. exists endstop. cbn. auto 10.
Qed.

(** X14.  A [BeltProbe] that was constructed answers [get_status] with
    the inactive status when the kinematics is ["belt"].  For any other
    kinematics the constructor returns early, having registered
    [BELT_PROBE] only and told the operator to use the other command,
    and [get_status] raises [AttributeError]: the attribute was never
    assigned. *)
Theorem status_after_init (config : ConfigWrapper) (kinematics : string)
    (k k' : klippy T) (self : BeltProbe) :
  config_kinematics config = inr kinematics ->
  BeltProbe_init config k = (inr self, k') ->
  (kinematics = "belt"%string ->
   BeltProbe_get_status self = inr (Status false None None None)) /\
  (kinematics <> "belt"%string ->
   BeltProbe_get_status self = inl (AttributeError "status") /\
   belt_commands k' =
   <["BELT_PROBE"%string := H_cmd_MANUAL_PROBE]> (belt_commands k) /\
   belt_responses k' = belt_responses k ++ [MsgUseManualProbe]).
Proof.
  intros K I. split.
  - intros ->.
    destruct (BeltProbe_init_belt config k k' self K I) as (e & _ & -> & _).
    reflexivity.
  - intros N. unfold BeltProbe_init in I. rewrite K in I.
    destruct (belt_register "BELT_PROBE" _ k) as [[e|[]] k1] eqn:R1;
      [discriminate|].
    apply belt_register_inv in R1. destruct R1 as [_ ->].
    destruct (String.eqb_spec "belt" kinematics) as [E|_];
      [symmetry in E; contradiction|].
    cbn [negb] in I. injection I as <- <-. cbn. auto.
Qed.

(** X15.  After the constructor has read the endstop position
    [endstop] of [stepper_y], the callback [y_endstop_finalize] at a
    position [kin] tells the operator [endstop - kin[1]] and stores the
    same value under [stepper_y], [position_endstop]; it reads the
    component 1 of the position, where [manual_probe_finalize] reports
    the component 2.  Without a position it does nothing. *)
Theorem endstop_calibrate_after_init (config : ConfigWrapper)
    (endstop : Q) (kin : kin_pos) (k k' : klippy T) (self : BeltProbe) :
  config_kinematics config = inr "belt"%string ->
  config_position_endstop config = inr (Some endstop) ->
  BeltProbe_init config k = (inr self, k') ->
  let r := BeltProbe_y_endstop_finalize self (Some kin) k' in
  fst r = inr tt /\
  configfile (snd r) !! ("stepper_y"%string, "position_endstop"%string) =
  Some (Fmt3 (endstop - kin_1 kin)) /\
  belt_responses (snd r) =
  belt_responses k' ++ [MsgPositionEndstop (Fmt3 (endstop - kin_1 kin))] /\
  BeltProbe_y_endstop_finalize self None k' = (inr tt, k') /\
  BeltProbe_manual_probe_finalize self (Some kin) k' =
  (inr tt, belt_respond (MsgYPositionIs (Fmt3 (kin_2 kin))) k').
Proof.
  intros K E I.
  destruct (BeltProbe_init_belt config k k' self K I) as (e & E' & -> & _).
  rewrite E in E'. injection E' as <-.
  cbv zeta. unfold BeltProbe_y_endstop_finalize, endstop_minus.
  cbn [attr_y_position_endstop fst snd configfile_set configfile
       belt_respond belt_responses].
  split; [reflexivity|]. split; [apply lookup_insert_eq|].
  split; reflexivity || (split; reflexivity).
Qed.

(** X16.  The endstop position is optional for the constructor: without
    it the constructor returns all the same.  Then [y_endstop_finalize]
    at a position, and [Y_OFFSET_APPLY_ENDSTOP] at an offset other than
    zero, raise [TypeError] and neither tell nor store anything; at the
    offset zero the command still answers "Nothing to do". *)
Theorem missing_endstop_type_error (config : ConfigWrapper)
    (kin : kin_pos) (gcmd : GCodeCommand) (k k' : klippy T)
    (self : BeltProbe) :
  config_kinematics config = inr "belt"%string ->
  config_position_endstop config = inr None ->
  BeltProbe_init config k = (inr self, k') ->
  BeltProbe_y_endstop_finalize self (Some kin) k' = (inl TypeError, k') /\
  (~ homing_origin_y k' == 0 ->
   cmd_Y_OFFSET_APPLY_ENDSTOP self gcmd k' = (inl TypeError, k')) /\
  (homing_origin_y k' == 0 ->
   cmd_Y_OFFSET_APPLY_ENDSTOP self gcmd k' =
   (inr tt, belt_respond MsgNothingToDo k')).
Proof.
  intros K E I.
  destruct (BeltProbe_init_belt config k k' self K I) as (e & E' & -> & _).
  rewrite E in E'. injection E' as <-.
  split; [reflexivity|]. unfold cmd_Y_OFFSET_APPLY_ENDSTOP.
  destruct (Py.eq (homing_origin_y k') 0) eqn:Z.
  - apply eq_spec in Z. split; [intros; contradiction|reflexivity].
  - split; [reflexivity|]. intros Z'. apply eq_spec in Z'. congruence.
Qed.

(** X17.  [Y_OFFSET_APPLY_ENDSTOP] stores [endstop - offset] for the
    endstop position that the constructor read, and does not take the
    stored value as the new endstop position: applied again at the same
    offset it has the same outcome, tells the same value and leaves the
    stored values as the first time. *)
Theorem offset_apply_twice (self : BeltProbe) (gcmd gcmd' : GCodeCommand)
    (k : klippy T) :
  let r1 := cmd_Y_OFFSET_APPLY_ENDSTOP self gcmd k in
  let r2 := cmd_Y_OFFSET_APPLY_ENDSTOP self gcmd' (snd r1) in
  fst r2 = fst r1 /\
  configfile (snd r2) = configfile (snd r1) /\
  (forall endstop,
     attr_y_position_endstop self = Some (Some endstop) ->
     ~ homing_origin_y k == 0 ->
     configfile (snd r1) =
     <[("stepper_y"%string, "position_endstop"%string) :=
         Fmt3 (endstop - homing_origin_y k)]> (configfile k) /\
     belt_responses (snd r2) =
     belt_responses k ++
     [MsgPositionEndstop (Fmt3 (endstop - homing_origin_y k));
      MsgPositionEndstop (Fmt3 (endstop - homing_origin_y k))]).
Proof.
  cbv zeta. unfold cmd_Y_OFFSET_APPLY_ENDSTOP.
  destruct (Py.eq (homing_origin_y k) 0) eqn:Z.
  - cbn [snd fst belt_respond homing_origin_y configfile]. rewrite Z.
    cbn [snd fst belt_respond homing_origin_y configfile].
    split; [reflexivity|]. split; [reflexivity|].
    intros endstop _ Z'. exfalso. apply Z'. apply eq_spec. exact Z.
  - unfold endstop_minus.
    destruct (attr_y_position_endstop self) as [[e|]|].
    + cbn [snd fst belt_respond homing_origin_y configfile configfile_set
           belt_responses].
      rewrite Z.
      cbn [snd fst belt_respond homing_origin_y configfile configfile_set
           belt_responses].
      split; [reflexivity|]. split; [apply insert_insert_eq|].
      intros endstop [= <-] _. split; [reflexivity|].
      rewrite <- app_assoc. reflexivity.
    + cbn [snd fst]. rewrite Z.
      split; [reflexivity|]. split; [reflexivity|]. intros ?; discriminate.
    + cbn [snd fst]. rewrite Z.
      split; [reflexivity|]. split; [reflexivity|]. intros ?; discriminate.
Qed.

End BeltProbeRuns.
(** ** The further properties at work *)

(** After [++] from [5] the history is [5] at the value [5.2]; a [-]
    goes to [5.1], between the stored [5] and [5.2]. *)
Lemma reported_neighbours_witness :
  let s := sim_after (Coord 0 0 5 0) true [gcmd_Y "++" None] in
  let s' := snd (cmd_TESTY (gcmd_Y "-" None) s) in
  past_positions (self s') = [5; 26 # 5] /\
  exists y',
    let pp' := past_positions (self s') in
    manual_probe_status (world s') =
    Status true (Some y') (nearest_below pp' y') (nearest_above pp' y') /\
    last (trace (world s')) =
    Some (RespondInfo
            (MsgYPosition (nearest_below pp' y') y' (nearest_above pp' y'))).
Proof.
  intros s s'. split; [vm_compute; reflexivity|].
  apply (reported_neighbours (gcmd_Y "-" None) s s').
  - apply sim_after_session.
  - vm_compute. reflexivity.
Defined.

Lemma history_grows_witness :
  let s := sim_after (Coord 0 0 5 0) true [gcmd_Y "++" None] in
  let pp := past_positions (self s) in
  let pp' := past_positions (self (snd (cmd_TESTY (gcmd_Y "-" None) s))) in
  pp = [5] /\ pp' = [5; 26 # 5] /\
  (forall v, In v pp -> In v pp') /\
  (exists v, In v pp' /\ v == resolved_y s) /\
  (length pp <= length pp' <= S (length pp))%nat.
Proof.
  intros s pp pp'. split; [vm_compute; reflexivity|].
  split; [vm_compute; reflexivity|].
  exact (history_grows (gcmd_Y "-" None) s).
Defined.

(** A [TESTY] with the offset [0] returns to the stored value [5]. *)
Lemma history_unchanged_on_revisit_witness :
  let s := sim_after (Coord 0 0 5 0) true [gcmd_Y "0" (Some 0)] in
  past_positions (self s) = [5] /\
  past_positions (self (snd (cmd_TESTY (gcmd_Y "++" None) s))) =
  past_positions (self s).
Proof.
  intros s. split; [vm_compute; reflexivity|].
  apply (history_unchanged_on_revisit (gcmd_Y "++" None) s).
  - apply sim_after_session.
  - exists 5. split; [left|]; vm_compute; reflexivity.
Defined.

(** With the history [1; 3] at the value [2], [+] stays between [2]
    and [3]. *)
Lemma step_inside_bracket_witness :
  exists c, Double.candidate [1; 3] 2 (gcmd_Y "+" None) = inr c /\
            2 <= c /\ c <= 3.
Proof.
  assert (Forall Double.in_range [1; 3]) as F.
  { apply all_in_range_check. vm_compute. reflexivity. }
  assert (Double.in_range 2) as D2.
  { apply in_range_check. vm_compute. reflexivity. }
  destruct (step_inside_bracket [1; 3] 2 3 (gcmd_Y "+" None)
              (sorted_distinct_check [1; 3] eq_refl) F D2) as [U _].
  apply U; [vm_compute; reflexivity|left; reflexivity].
Defined.

(** A [TESTY] without the parameter [Y]. *)
Lemma testy_unreadable_parameter_witness :
  let s := sim_session (Coord 0 0 5 0) true in
  let s' := snd (cmd_TESTY gcmd_plain s) in
  fst (cmd_TESTY gcmd_plain s) = inl (CommandError (MsgParameter "Y")) /\
  past_positions (self s') = [5] /\
  trace (world s') = trace (world s).
Proof.
  intros s s'.
  destruct (testy_unreadable_parameter gcmd_plain s
              (CommandError (MsgParameter "Y")) (or_introl eq_refl))
    as (E & P & R & _).
  split; [exact E|]. split; [|exact R].
  fold s' in P. rewrite P. vm_compute. reflexivity.
Defined.


Lemma sim_flush_keeps_position : flush_keeps_position sim.
Proof.
  intros th. cbn [flush_step_generation get_position sim_toolhead].
  unfold coord_eqb.
  rewrite !(proj2 (eq_spec _ _)) by reflexivity. reflexivity.
Defined.

Lemma get_kinematics_pos_twice_witness :
  let s := sim_session (Coord 0 0 5 0) true in
  get_kinematics_pos (snd (get_kinematics_pos s)) = get_kinematics_pos s /\
  fst (get_kinematics_pos s) = inr (KinPos 0 5 0).
Proof.
  intros s.
  split; [exact (get_kinematics_pos_twice s sim_flush_keeps_position)|].
  vm_compute. reflexivity.
Defined.

(** A printer on which [NEXT] is taken and [ACCEPT] is free. *)
Lemma constructor_returns_iff_witness :
  let p := set_handlers (insert "NEXT"%string H_dummy)
             (sim_printer (Coord 0 0 5 0) false true) in
  ~ (exists h p', BeltProbeHelper_init gcmd_plain manual_probe_finalize p =
                  (inr h, p')) /\
  exists h p',
    BeltProbeHelper_init gcmd_plain manual_probe_finalize
      (sim_printer (Coord 0 0 5 0) false true) = (inr h, p').
Proof.
  intros p. split.
  - intros R.
    apply (constructor_returns_iff gcmd_plain manual_probe_finalize p) in R.
    destruct R as (_ & _ & N & _). vm_compute in N. discriminate.
  - apply (constructor_returns_iff gcmd_plain manual_probe_finalize).
    split; [exact I|]. repeat split; reflexivity.
Defined.

Lemma constructor_leaves_guard_witness :
  let p := set_handlers (insert "NEXT"%string H_dummy)
             (sim_printer (Coord 0 0 5 0) false true) in
  (exists p',
     BeltProbeHelper_init gcmd_plain manual_probe_finalize p =
     (inl (ConfigError (MsgAlreadyRegistered "NEXT")), p') /\
     gcode_handlers p' !! "ACCEPT" = Some H_cmd_ACCEPT /\
     forall gcmd' cb',
       speed_param_ok gcmd' ->
       BeltProbeHelper_init gcmd' cb' p' =
       (inl (CommandError MsgAlreadyInProbe), p')) /\
  BeltProbeHelper_init (gcmd_SPEED "fast") manual_probe_finalize p =
  (inl (CommandError (MsgParameter "fast")), p).
Proof.
  intros p.
  destruct (constructor_leaves_guard gcmd_plain manual_probe_finalize p)
    as [_ R]; [reflexivity|left; exists H_dummy; reflexivity|].
  destruct (constructor_leaves_guard (gcmd_SPEED "fast")
              manual_probe_finalize p) as [U _];
    [reflexivity|left; exists H_dummy; reflexivity|].
  split; [|apply U; reflexivity].
  destruct (R I) as (name & p' & J & N & _ & _ & A & L).
  exists p'. rewrite <- (N (ex_intro _ H_dummy eq_refl)).
  split; [exact J|]. split; [exact A|exact L].
Defined.

Lemma verify_leaves_printer_witness :
  let s := sim_session (Coord 0 0 5 0) true in
  verify_no_manual_probe (world s) =
  (inl (CommandError MsgAlreadyInProbe), world s).
Proof.
  intros s.
  destruct (verify_leaves_printer (world s)) as (P & (_ & R) & _).
  rewrite (surjective_pairing (verify_no_manual_probe (world s))).
  rewrite P, R; [reflexivity|].
  exists H_cmd_ACCEPT. vm_compute. reflexivity.
Defined.

(** A constructor for the kinematics ["cartesian"]. *)
Lemma status_after_init_witness :
  let r := BeltProbe_init (config_of "cartesian" (Some 10))
             (sim_klippy (Coord 0 0 5 0) 0) in
  exists self,
    fst r = inr self /\
    BeltProbe_get_status self = inl (AttributeError "status") /\
    belt_responses (snd r) = [MsgUseManualProbe].
Proof.
  intros r. exists (BeltProbeObject None None).
  split; [vm_compute; reflexivity|].
  destruct (status_after_init (config_of "cartesian" (Some 10)) "cartesian"
              (sim_klippy (Coord 0 0 5 0) 0) (snd r)
              (BeltProbeObject None None) eq_refl) as [_ B].
  - vm_compute. reflexivity.
  - destruct B as (G & _ & R); [discriminate|]. split; [exact G|exact R].
Defined.

(** The endstop position [10] and the position [3] on component 1:
    [7] is stored. *)
Lemma endstop_calibrate_after_init_witness :
  let i := BeltProbe_init (config_of "belt" (Some 10))
             (sim_klippy (Coord 0 0 5 0) 0) in
  exists self,
    fst i = inr self /\
    let r := BeltProbe_y_endstop_finalize self (Some (KinPos 1 3 2)) (snd i) in
    configfile (snd r) !! ("stepper_y"%string, "position_endstop"%string) =
    Some (Fmt3 (10 - 3)).
Proof.
  intros i.
  exists
    (BeltProbeObject (Some (Some 10)) (Some (Status false None None None))).
  split; [vm_compute; reflexivity|].
  destruct (endstop_calibrate_after_init (config_of "belt" (Some 10)) 10
              (KinPos 1 3 2) (sim_klippy (Coord 0 0 5 0) 0) (snd i)
              (BeltProbeObject (Some (Some 10))
                 (Some (Status false None None None))) eq_refl eq_refl)
    as (_ & C & _).
  - vm_compute. reflexivity.
  - exact C.
Defined.

(** No endstop position in the configuration, and the offset [1]. *)
Lemma missing_endstop_type_error_witness :
  let i := BeltProbe_init (config_of "belt" None)
             (sim_klippy (Coord 0 0 5 0) 1) in
  exists self,
    fst i = inr self /\
    BeltProbe_y_endstop_finalize self (Some (KinPos 1 3 2)) (snd i) =
    (inl TypeError, snd i) /\
    cmd_Y_OFFSET_APPLY_ENDSTOP self gcmd_plain (snd i) =
    (inl TypeError, snd i).
Proof.
  intros i.
  exists (BeltProbeObject (Some None) (Some (Status false None None None))).
  split; [vm_compute; reflexivity|].
  destruct (missing_endstop_type_error (config_of "belt" None)
              (KinPos 1 3 2) gcmd_plain (sim_klippy (Coord 0 0 5 0) 1) (snd i)
              (BeltProbeObject (Some None)
                 (Some (Status false None None None))) eq_refl eq_refl)
    as (A & B & _).
  - vm_compute. reflexivity.
  - split; [exact A|]. apply B. vm_compute. discriminate.
Defined.

(** The endstop position [10] and the offset [1], applied twice: [9]
    is stored, and told twice. *)
Lemma offset_apply_twice_witness :
  let self := BeltProbeObject (Some (Some 10)) None in
  let k := sim_klippy (Coord 0 0 5 0) 1 in
  let r1 := cmd_Y_OFFSET_APPLY_ENDSTOP self gcmd_plain k in
  let r2 := cmd_Y_OFFSET_APPLY_ENDSTOP self gcmd_plain (snd r1) in
  configfile (snd r2) = configfile (snd r1) /\
  configfile (snd r1) =
  <[("stepper_y"%string, "position_endstop"%string) := Fmt3 (10 - 1)]> ∅ /\
  belt_responses (snd r2) =
  [MsgPositionEndstop (Fmt3 (10 - 1)); MsgPositionEndstop (Fmt3 (10 - 1))].
Proof.
  intros self k r1 r2.
  destruct (offset_apply_twice self gcmd_plain gcmd_plain k)
    as (_ & C & F).
  split; [exact C|].
  apply (F 10); [reflexivity|]. vm_compute. discriminate.
Defined.

(** The toolhead below the start position [2], at [1]: [ACCEPT] hands
    over the position whose component 1 is [1]. *)
Lemma accept_hands_resolved_position_witness :
  let s0 := sim_session (Coord 0 0 2 0) true in
  let s :=
    State (self s0)
      (set_toolhead (Sim (Coord 0 0 1 0) false true) (world s0)) in
  resolved_y s = 1 /\
  exists kin,
    fst (get_kinematics_pos s) = inr kin /\
    kin_1 kin = resolved_y s /\
    trace (world (snd (cmd_ACCEPT gcmd_plain s))) =
    trace (world s) ++
    [FinalizeCallback (finalize_callback (self s)) (Some kin)].
Proof.
  intros s0 s. split; [vm_compute; reflexivity|].
  apply (accept_hands_resolved_position gcmd_plain s).
  repeat split; vm_compute; reflexivity.
Defined.

(** A session on a printer that has no commands, with two [TESTY] and
    an [ACCEPT]-like end: no command is left. *)
Lemma session_restores_table_witness :
  let s := sim_after (Coord 0 0 5 0) true
             [gcmd_Y "++" None; gcmd_Y "-" None] in
  let s' := snd (finalize true s) in
  gcode_handlers (world s) !! "TESTY" = Some H_cmd_TESTY /\
  gcode_handlers (world s') = ∅ /\
  manual_probe_status (world s') = Status false None None None.
Proof.
  intros s s'. split; [vm_compute; reflexivity|].
  exact (session_restores_table gcmd_plain manual_probe_finalize
           (sim_printer (Coord 0 0 5 0) false true)
           (world (sim_session (Coord 0 0 5 0) true))
           (self (sim_session (Coord 0 0 5 0) true))
           [gcmd_Y "++" None; gcmd_Y "-" None] true
           (sim_session_start (Coord 0 0 5 0) true)).
Defined.
